(** * Scroll-driven marketing site: readiness gate, animation setup, hover video

    A shallow embedding of the sequencing code of the site: the
    [useFontsLoaded] hook, the animation setup callbacks that the sections
    hand to [useGSAP], and the hover handlers of the testimonial cards.

    Times of the host event loop are natural numbers of milliseconds since
    mount; offsets inside an animation timeline are integers of milliseconds
    (a position such as [-=0.5] is negative). *)

From Stdlib Require Import ZArith Lia Bool Ascii String List.
From stdpp Require Import base option list strings.
Import ListNotations.

Set Default Proof Using "Type".
Set Warnings "-register-all".
Open Scope string_scope.
Open Scope list_scope.

(* ===================================================================== *)
(** * Part I. Definitions                                                 *)
(* ===================================================================== *)

(** ** src/hooks/useFontsLoaded.js *)

Module Fonts.

(** The double-quote character, for the font shorthands of the source. *)
Definition dq : string := String (ascii_of_nat 34) EmptyString.

(** ['1em "Antonio"'] *)
Definition antonio_font : string := "1em " +:+ dq +:+ "Antonio" +:+ dq.

(** ['1em "ProximaNova, sans-serif"'] *)
Definition proxima_font : string := "1em " +:+ dq +:+ "ProximaNova, sans-serif" +:+ dq.

(** [document.fonts.ready]: a promise that settles some milliseconds after
    mount, or never. *)
Inductive promise : Type :=
| Resolves (at_ms : nat)
| NeverSettles.

(** [document.fonts]: each of the two members the hook looks at may be
    missing (an older browser). *)
Record FontFaceSet : Type := {
  ready : option promise;
  check : option (string -> bool)
}.

Record Document : Type := { fonts : option FontFaceSet }.

(** The host document as the hook sees it over time: [document] is a live
    global, read again by every poll. *)
Definition host : Type := nat -> Document.

(** The callbacks the hook hands to the host: the [then] continuation of the
    promise, [checkFonts] itself (re-armed by [setTimeout]), and the arrow
    function [() => setFontsLoaded(true)] of the last branch. *)
Inductive task : Type :=
| ReadyThen
| CheckFonts
| AssumeLoaded.

(** One mounted instance of the hook.  [setter_calls] is a ghost counter of
    the calls of [setFontsLoaded]; the code never reads it. *)
Record hook : Type := {
  now : nat;
  fontsLoaded : bool;
  timers : list (nat * task);
  setter_calls : nat
}.

(** [useState(false)] *)
Definition useState_false : hook :=
  {| now := 0; fontsLoaded := false; timers := []; setter_calls := 0 |}.

Definition setFontsLoaded (v : bool) (h : hook) : hook :=
  {| now := now h; fontsLoaded := v; timers := timers h;
     setter_calls := S (setter_calls h) |}.

(** [setTimeout(cb, delay)] and the registration of a [then] continuation:
    the callback becomes due [delay] ms from now. *)
Definition setTimeout (cb : task) (delay : nat) (h : hook) : hook :=
  {| now := now h; fontsLoaded := fontsLoaded h;
     timers := timers h ++ [(now h + delay, cb)];
     setter_calls := setter_calls h |}.

Definition checkFonts (doc : host) (h : hook) : hook :=
  match fonts (doc (now h)) with
  | Some f =>
      match check f with
      | Some document_fonts_check =>
          let antonioLoaded := document_fonts_check antonio_font in
          let proximaLoaded := document_fonts_check proxima_font in
          if antonioLoaded && proximaLoaded
          then setFontsLoaded true h
          else setTimeout CheckFonts 100 h
      | None => setTimeout AssumeLoaded 1000 h
      end
  | None => setTimeout AssumeLoaded 1000 h
  end.

(** [promise.then(cb)]: the continuation becomes due when the promise
    settles (at once if it has), never if it does not. *)
Definition then_ (p : promise) (cb : task) (h : hook) : hook :=
  match p with
  | Resolves t =>
      {| now := now h; fontsLoaded := fontsLoaded h;
         timers := timers h ++ [(Nat.max (now h) t, cb)];
         setter_calls := setter_calls h |}
  | NeverSettles => h
  end.

(** The body of [useEffect(() => {...}, [])], run once after the first
    render. *)
Definition effect (doc : host) (h : hook) : hook :=
  match fonts (doc (now h)) with
  | Some f =>
      match ready f with
      | Some document_fonts_ready => then_ document_fonts_ready ReadyThen h
      | None => checkFonts doc h
      end
  | None => checkFonts doc h
  end.

Definition run_task (doc : host) (t : task) (h : hook) : hook :=
  match t with
  | ReadyThen => setFontsLoaded true h
  | CheckFonts => checkFonts doc h
  | AssumeLoaded => setFontsLoaded true h
  end.

(** The host picks the callback that is due first; among callbacks due at
    the same time, the one registered first. *)
Fixpoint earliest (q : list (nat * task)) : option ((nat * task) * list (nat * task)) :=
  match q with
  | [] => None
  | x :: q' =>
      match earliest q' with
      | Some (y, rest) =>
          if (fst y <? fst x)%nat then Some (y, x :: rest) else Some (x, q')
      | None => Some (x, [])
      end
  end.

(** One turn of the event loop: run the next due callback, if any. *)
Definition tick (doc : host) (h : hook) : hook :=
  match earliest (timers h) with
  | Some ((due, t), rest) =>
      run_task doc t
        {| now := Nat.max (now h) due; fontsLoaded := fontsLoaded h;
           timers := rest; setter_calls := setter_calls h |}
  | None => h
  end.

(** The instance after mount (first render, then the effect) and [n] turns
    of the event loop. *)
Definition mount (doc : host) : hook := effect doc useState_false.

Fixpoint run (doc : host) (n : nat) : hook :=
  match n with
  | O => mount doc
  | S n' => tick doc (run doc n')
  end.

(** The values the hook returns over a mount: the first render, then the
    value after the effect and after each of [n] turns. *)
Definition signal (doc : host) (n : nat) : list bool :=
  fontsLoaded useState_false :: map (fun k => fontsLoaded (run doc k)) (seq 0 (S n)).

(** Number of false-to-true and of true-to-false changes along a list of
    observed values. *)
Fixpoint rises (l : list bool) : nat :=
  match l with
  | a :: ((b :: _) as l') => (if negb a && b then 1 else 0) + rises l'
  | _ => 0
  end.

Fixpoint falls (l : list bool) : nat :=
  match l with
  | a :: ((b :: _) as l') => (if a && negb b then 1 else 0) + falls l'
  | _ => 0
  end.

(** What the [k]-th poll of the fallback path finds, at time [100 * k]. *)
Inductive outcome : Type := BothLoaded | NotYet | NoCheck.

Definition poll (doc : host) (k : nat) : outcome :=
  match fonts (doc (100 * k)) with
  | Some f =>
      match check f with
      | Some chk => if chk antonio_font && chk proxima_font then BothLoaded else NotYet
      | None => NoCheck
      end
  | None => NoCheck
  end.

(** The platform promise is unavailable at mount. *)
Definition promise_unavailable (doc : host) : Prop :=
  match fonts (doc 0) with
  | Some f => ready f = None
  | None => True
  end.

(** Whether a completion path has fired within [n] turns of the event loop,
    read off the host alone.  On the fallback path, from poll [k] on: a poll
    that finds both fonts loaded completes at once; a poll that finds no
    check arms the forcing timer, which fires one turn later; a poll that
    finds a font missing leaves it to the next poll, one turn later. *)
Fixpoint fallback_fired (doc : host) (k n : nat) : bool :=
  match poll doc k with
  | BothLoaded => true
  | NoCheck => (1 <=? n)%nat
  | NotYet =>
      match n with
      | O => false
      | S n' => fallback_fired doc (S k) n'
      end
  end.

(** Where the platform has the promise, the only completion is its
    settling, and its continuation is the first callback to run; a promise
    that never settles completes nothing. *)
Definition completion_fired (doc : host) (n : nat) : bool :=
  match fonts (doc 0) with
  | Some f =>
      match ready f with
      | Some (Resolves _) => (1 <=? n)%nat
      | Some NeverSettles => false
      | None => fallback_fired doc 0 n
      end
  | None => fallback_fired doc 0 n
  end.

(** A host whose promise is missing and whose synchronous check never
    reports the two fonts. *)
Definition host_never_loaded : host :=
  fun _ => {| fonts := Some {| ready := None; check := Some (fun _ => false) |} |}.

(** A host with the promise, settling 50 ms after mount. *)
Definition host_ready_at (t : nat) : host :=
  fun _ => {| fonts := Some {| ready := Some (Resolves t); check := None |} |}.

(** A host without the promise whose check reports the fonts from 250 ms on. *)
Definition host_fonts_late : host :=
  fun t => {| fonts := Some {| ready := None; check := Some (fun _ => (250 <=? t)%nat) |} |}.

(** A host with no font facility at all. *)
Definition host_bare : host := fun _ => {| fonts := None |}.

(** The shape every reachable instance has: at most one callback is pending,
    none once the signal is set, and the setter has been called exactly as
    often as the signal shows. *)
Definition settled (h : hook) : Prop :=
  length (timers h) <= 1 /\
  (fontsLoaded h = true -> timers h = []) /\
  setter_calls h = (if fontsLoaded h then 1 else 0).

(** The instance just before its [k]-th poll: nothing pending, nothing set. *)
Definition armed (k : nat) : hook :=
  {| now := 100 * k; fontsLoaded := false; timers := []; setter_calls := 0 |}.

End Fonts.

(** ** The rendered document *)

Module Dom.

(** An element carries its tag, the names of its [className], its other
    attributes and its children; text is a leaf. *)
Inductive node : Type :=
| El (tag : string) (className : list string) (attrs : list (string * string))
     (children : list node)
| Text (data : string).

(** An element is referred to by the child indices leading to it from the
    root. *)
Definition path : Type := list nat.

(** The selectors the site uses: chains of compound selectors joined by the
    descendant combinator; a compound is a conjunction of tag, class,
    attribute-presence and [:nth-child] tests. *)
Inductive simple : Type :=
| Tag (t : string)
| Class (c : string)
| HasAttr (a : string)
| NthChild (n : nat).

Definition compound : Type := list simple.
Definition selector : Type := list compound.

Definition is_element (n : node) : bool :=
  match n with El _ _ _ _ => true | Text _ => false end.

Definition has_attribute (a : string) (n : node) : bool :=
  match n with
  | El _ _ attrs _ => existsb (fun kv => String.eqb (fst kv) a) attrs
  | Text _ => false
  end.

(** [k] is the 1-based position of the element among its element siblings. *)
Definition matches_simple (n : node) (k : nat) (s : simple) : bool :=
  match n with
  | El t cs attrs _ =>
      match s with
      | Tag t' => String.eqb t t'
      | Class c => existsb (String.eqb c) cs
      | HasAttr a => existsb (fun kv => String.eqb (fst kv) a) attrs
      | NthChild i => Nat.eqb i k
      end
  | Text _ => false
  end.

Definition matches_compound (n : node) (k : nat) (c : compound) : bool :=
  forallb (matches_simple n k) c.

(** The remaining compounds of a chain, innermost first, against the
    ancestors of an element, nearest first. *)
Fixpoint match_ancestors (ancs : list (node * nat)) (rest : list compound) : bool :=
  match rest, ancs with
  | [], _ => true
  | _ :: _, [] => false
  | c :: rest', (a, k) :: ancs' =>
      (matches_compound a k c && match_ancestors ancs' rest')
      || match_ancestors ancs' rest
  end.

Definition matches (sel : selector) (n : node) (k : nat) (ancs : list (node * nat)) : bool :=
  match rev sel with
  | [] => false
  | c :: rest => matches_compound n k c && match_ancestors ancs rest
  end.

(** All elements of a tree in document order, each with its path, its
    position among its siblings and its ancestors. *)
Fixpoint elements (ancs : list (node * nat)) (p : path) (k : nat) (n : node)
  : list (path * node * nat * list (node * nat)) :=
  match n with
  | Text _ => []
  | El _ _ _ kids =>
      (p, n, k, ancs) ::
      (fix each (ks : list node) (i : nat) (e : nat) :=
         match ks with
         | [] => []
         | c :: ks' =>
             elements ((n, k) :: ancs) (p ++ [i]) e c
             ++ each ks' (S i) (if is_element c then S e else e)
         end) kids 0 1
  end.

(** [document.querySelectorAll(sel)] *)
Definition querySelectorAll (sel : selector) (root : node) : list path :=
  map (fun x => fst (fst (fst x)))
      (List.filter (fun x => matches sel (snd (fst (fst x))) (snd (fst x)) (snd x))
                   (elements [] [] 1 root)).

Fixpoint textContent (n : node) : string :=
  match n with
  | Text s => s
  | El _ _ _ kids =>
      (fix each (ks : list node) : string :=
         match ks with
         | [] => EmptyString
         | c :: ks' => textContent c +:+ each ks'
         end) kids
  end.

Fixpoint lookup (p : path) (n : node) : option node :=
  match p with
  | [] => Some n
  | i :: p' =>
      match n with
      | El _ _ _ kids => match kids !! i with Some c => lookup p' c | None => None end
      | Text _ => None
      end
  end.

Fixpoint update (f : node -> node) (p : path) (n : node) : node :=
  match p with
  | [] => f n
  | i :: p' =>
      match n with
      | El t cs attrs kids => El t cs attrs (alter (update f p') i kids)
      | Text _ => n
      end
  end.

(** [el.setAttribute(name, value)] and [el.removeAttribute(name)] *)
Definition setAttribute (name value : string) (n : node) : node :=
  match n with
  | El t cs attrs kids =>
      El t cs (List.filter (fun kv => negb (String.eqb (fst kv) name)) attrs ++ [(name, value)]) kids
  | Text _ => n
  end.

Definition removeAttribute (name : string) (n : node) : node :=
  match n with
  | El t cs attrs kids =>
      El t cs (List.filter (fun kv => negb (String.eqb (fst kv) name)) attrs) kids
  | Text _ => n
  end.

(** Splitting a string at spaces, as a [className] is read and as text is cut
    into words. *)
Fixpoint split_spaces (acc : string) (s : string) : list string :=
  match s with
  | EmptyString => match acc with EmptyString => [] | _ => [acc] end
  | String a s' =>
      if Ascii.eqb a " "%char
      then match acc with EmptyString => split_spaces EmptyString s' | _ => acc :: split_spaces EmptyString s' end
      else split_spaces (acc +:+ String a EmptyString) s'
  end.

Definition words_of (s : string) : list string := split_spaces EmptyString s.

(** The characters of a text, spaces apart.  A string is a list of bytes;
    the texts of the site are ASCII, one byte to a character. *)
Definition chars_of (s : string) : list ascii :=
  List.filter (fun a => negb (Ascii.eqb a " "%char)) (list_ascii_of_string s).

(** [s.trim()]: the string without the white space at its ends. *)
Definition is_space (a : ascii) : bool :=
  let n := nat_of_ascii a in ((9 <=? n) && (n <=? 13))%nat || (n =? 32)%nat.

Fixpoint trim_start (l : list ascii) : list ascii :=
  match l with
  | a :: l' => if is_space a then trim_start l' else l
  | [] => []
  end.

Definition trim (s : string) : string :=
  string_of_list_ascii (rev (trim_start (rev (trim_start (list_ascii_of_string s))))).

(** Markup as the components write it: [el tag className children]. *)
Definition el (tag className : string) (children : list node) : node :=
  El tag (words_of className) [] children.

End Dom.

(** ** The animation engine, as far as the site drives it

    The engine is a library the site imports.  What follows is the part of
    its documented behaviour that the setup callbacks rely on: a timeline is
    an ordered list of steps; a step given no position starts at the end of
    the timeline, one given ["-=x"] starts [x] before that end, one given
    ["<"] starts with the step added last; a step lasts half a second unless
    it says otherwise, plus its stagger for every target after the first;
    [SplitText.create] labels the elements it cuts. *)

Module Gsap.
Import Dom.
#[local] Open Scope Z_scope.

(** Values of animated properties: [7], [0.9], ["polygon(...)"], and the
    template literal [`-${n}px`]: a hyphen, the digits of [n] (with their own
    sign when [n] is negative) and the unit. *)
Inductive value : Type :=
| Num (n : Z)
| Ratio (n d : Z)
| Str (s : string)
| MinusPx (n : Z).

(** A scroll position: a literal such as ["top 30%"], or one of the two
    template literals of the site, [`top ${n}%`] and [`+=${n}px`]. *)
Inductive place : Type :=
| Place (s : string)
| TopPercent (n : Z)
| PlusPx (n : Z).

(** [scrub: true] or [scrub: 1.5] (smoothing, in milliseconds) *)
Inductive scrubbing : Type :=
| ScrubTrue
| ScrubSmooth (ms : Z).

(** The members of a [scrollTrigger: {...}] object. *)
Inductive trigger_entry : Type :=
| trigger (sel : selector)
| start (at_ : place)
| end_ (at_ : place)
| scrub (s : scrubbing)
| pin (b : bool).

(** The members of the object passed to [to], [from], [set] and [timeline]:
    animated properties and the special members the engine reads itself.
    Durations are in milliseconds. *)
Inductive entry : Type :=
| prop (name : string) (v : value)
| duration (ms : Z)
| stagger (ms : Z)
| ease (name : string)
| delay (ms : Z)
| scrollTrigger (st : list trigger_entry).

Definition vars : Type := list entry.

(** What an animation acts on: an element, or a piece that [SplitText] cut
    out of an element. *)
Inductive target : Type :=
| Elem (p : path)
| CharOf (p : path) (i : nat)
| WordOf (p : path) (i : nat).

(** The first argument of [to] and [from]: a selector text, still to be
    resolved against the document, or a list of targets in hand. *)
Inductive targets_arg : Type :=
| Selector (sel : selector)
| Targets (l : list target).

(** The position parameter: absent, ["-=0.5"] / ["+=0.5"] (relative to the end
    of the timeline), or ["<"] (the start of the most recently added
    animation). *)
Inductive position : Type :=
| Default
| FromEnd (offset : Z)
| WithPrevious.

Inductive direction : Type := To | From.

(** An animation step as the engine holds it. *)
Record step : Type := {
  dir : direction;
  targets : list target;
  step_vars : vars;
  startTime : Z;
  totalDuration : Z
}.

Inductive body : Type :=
| Timeline (v : vars) (steps : list step)
| Tween (s : step).

Record animation : Type := { live : bool; what : body }.

(** The result of [SplitText.create]. *)
Inductive split_type : Type := Chars | Words | WordsLines.

Record splitText : Type := {
  split_of : list path;
  split_as : split_type;
  chars : list target;
  words : list target
}.

(** The page as the setup code sees and changes it: the document, the
    animations the engine holds (a timeline's handle is its index), the
    splits performed and the immediate [gsap.set] calls. *)
Record world : Type := {
  document : node;
  animations : list animation;
  splits : list splitText;
  sets : list (list target * vars)
}.

Definition blank (d : node) : world :=
  {| document := d; animations := []; splits := []; sets := [] |}.

(** The setup code is sequential code over the page. *)
Definition M (A : Type) : Type := world -> A * world.

#[global] Instance M_ret : MRet M := fun A x w => (x, w).
#[global] Instance M_bind : MBind M :=
  fun A B k c w => let (x, w') := c w in k x w'.

Definition exec {A : Type} (c : M A) (w : world) : world := snd (c w).

Definition get_duration (v : vars) : Z :=
  match omap (fun e => match e with duration ms => Some ms | _ => None end) v with
  | ms :: _ => ms
  | [] => 500
  end.

Definition get_stagger (v : vars) : Z :=
  match omap (fun e => match e with stagger ms => Some ms | _ => None end) v with
  | ms :: _ => ms
  | [] => 0
  end.

Definition get_scrollTrigger (v : vars) : option (list trigger_entry) :=
  match omap (fun e => match e with scrollTrigger st => Some st | _ => None end) v with
  | st :: _ => Some st
  | [] => None
  end.

Definition pins (st : list trigger_entry) : bool :=
  existsb (fun e => match e with pin b => b | _ => false end) st.

(** A step lasts its duration (half a second by default) plus one stagger
    per further target. *)
Definition step_duration (v : vars) (n : nat) : Z :=
  get_duration v + get_stagger v * Z.of_nat (Nat.pred n).

Definition timeline_end (steps : list step) : Z :=
  fold_right Z.max 0 (map (fun s => startTime s + totalDuration s) steps).

Definition recent_start (steps : list step) : Z :=
  match last steps with
  | Some s => startTime s
  | None => 0
  end.

Definition resolve_position (pos : position) (steps : list step) : Z :=
  match pos with
  | Default => timeline_end steps
  | FromEnd offset => timeline_end steps + offset
  | WithPrevious => recent_start steps
  end.

Definition resolve_targets (t : targets_arg) (d : node) : list target :=
  match t with
  | Selector sel => map Elem (querySelectorAll sel d)
  | Targets l => l
  end.

Definition make_step (dr : direction) (ts : list target) (v : vars) (at_ : Z) : step :=
  {| dir := dr; targets := ts; step_vars := v; startTime := at_;
     totalDuration := step_duration v (length ts) |}.

(** [gsap.timeline(vars)]: a new, empty timeline; its handle is returned. *)
Definition gsap_timeline (v : vars) : M nat :=
  fun w =>
    (length (animations w),
     {| document := document w;
        animations := animations w ++ [{| live := true; what := Timeline v [] |}];
        splits := splits w; sets := sets w |}).

Definition add_step (dr : direction) (ts : list target) (v : vars) (pos : position)
  (a : animation) : animation :=
  match what a with
  | Timeline tv steps =>
      {| live := live a;
         what := Timeline tv (steps ++ [make_step dr ts v (resolve_position pos steps)]) |}
  | Tween _ => a
  end.

Definition tl_add (dr : direction) (tl : nat) (t : targets_arg) (v : vars) (pos : position)
  : M unit :=
  fun w =>
    (tt,
     {| document := document w;
        animations := alter (add_step dr (resolve_targets t (document w)) v pos) tl (animations w);
        splits := splits w; sets := sets w |}).

(** [tl.to(targets, vars, position)] and [tl.from(targets, vars, position)] *)
Definition tl_to := tl_add To.
Definition tl_from := tl_add From.

Definition gsap_tween (dr : direction) (t : targets_arg) (v : vars) : M unit :=
  fun w =>
    (tt,
     {| document := document w;
        animations := animations w ++
          [{| live := true; what := Tween (make_step dr (resolve_targets t (document w)) v 0) |}];
        splits := splits w; sets := sets w |}).

(** [gsap.to(targets, vars)] and [gsap.from(targets, vars)] *)
Definition gsap_to := gsap_tween To.
Definition gsap_from := gsap_tween From.

(** [gsap.set(targets, vars)] *)
Definition gsap_set (t : targets_arg) (v : vars) : M unit :=
  fun w =>
    (tt,
     {| document := document w; animations := animations w; splits := splits w;
        sets := sets w ++ [(resolve_targets t (document w), v)] |}).

Definition pieces (ty : split_type) (d : node) (p : path) : list target * list target :=
  match Dom.lookup p d with
  | Some n =>
      match ty with
      | Chars => (map (CharOf p) (seq 0%nat (length (chars_of (textContent n)))), [])
      | Words | WordsLines => ([], map (WordOf p) (seq 0%nat (length (words_of (textContent n)))))
      end
  | None => ([], [])
  end.

Definition label (d : node) (p : path) : node :=
  match Dom.lookup p d with
  | Some n => update (setAttribute "aria-label" (trim (textContent n))) p d
  | None => d
  end.

(** [SplitText.create(selector, { type })]: every matched element is cut into
    characters or words and is given an [aria-label] holding its trimmed
    text (the attribute the message and nutrition sections remove again). *)
Definition SplitText_create (sel : selector) (ty : split_type) : M splitText :=
  fun w =>
    let els := querySelectorAll sel (document w) in
    let sp := {| split_of := els; split_as := ty;
                 chars := flat_map (fun p => fst (pieces ty (document w) p)) els;
                 words := flat_map (fun p => snd (pieces ty (document w) p)) els |} in
    (sp,
     {| document := fold_left label els (document w);
        animations := animations w; splits := splits w ++ [sp]; sets := sets w |}).

(** [document.querySelectorAll(sel).forEach((el) => el.removeAttribute(name))] *)
Definition removeAttribute_all (sel : selector) (name : string) : M unit :=
  fun w =>
    (tt,
     {| document := fold_left (fun d p => update (removeAttribute name) p d)
                              (querySelectorAll sel (document w)) (document w);
        animations := animations w; splits := splits w; sets := sets w |}).

(** Reverting an animation kills it; a timeline reverts and releases its
    children first, so that it is left with none. *)
Definition kill (a : animation) : animation :=
  {| live := false;
     what := match what a with
             | Timeline v _ => Timeline v []
             | Tween s => Tween s
             end |}.

(** [context.revert()]: every animation the context recorded is reverted.
    (Only the animations are followed here, not the styles and the text the
    engine restores with them.) *)
Definition revert (ctx : list nat) (w : world) : world :=
  {| document := document w;
     animations := fold_left (fun l i => alter kill i l) ctx (animations w);
     splits := splits w; sets := sets w |}.

(** The steps of the timeline with handle [tl], and whether an animation is
    bound to a pinning scroll trigger. *)
Definition steps_of (w : world) (tl : nat) : list step :=
  match animations w !! tl with
  | Some {| what := Timeline _ steps |} => steps
  | _ => []
  end.

Definition animation_vars (a : animation) : vars :=
  match what a with
  | Timeline v _ => v
  | Tween s => step_vars s
  end.

Definition is_pinned (a : animation) : bool :=
  match get_scrollTrigger (animation_vars a) with
  | Some st => pins st
  | None => false
  end.

Definition is_timeline (a : animation) : bool :=
  match what a with Timeline _ _ => true | Tween _ => false end.

End Gsap.

(** ** What a render reads, and the [useGSAP] hook

    [useGSAP] is the hook of the engine's React binding.  As its package
    documents, the callback runs after the first render and again after a
    render in which a value of the dependency array changed; an omitted array
    is the empty one; the context that records what the callback creates is
    reverted when the component unmounts and, only if [revertOnUpdate] is set,
    before each further run. *)

Module React.
Import Gsap.
#[local] Open Scope Z_scope.

(** The values a component reads when it renders: the readiness signal of
    [useFontsLoaded], the viewport width behind [useMediaQuery], and the
    scroll width of the slider container. *)
Record view : Type := {
  fontsLoaded : bool;
  innerWidth : Z;
  scrollWidth : Z
}.

(** [useMediaQuery({ query: "(max-width: Npx)" })] *)
Definition max_width (px : Z) (v : view) : bool := innerWidth v <=? px.

(** A call [useGSAP(callback, dependencies)] of a component: the callback
    closes over the values of the render; the dependency array may be
    omitted; no component of the site passes a configuration object, so
    [revertOnUpdate] is never set. *)
Record component : Type := {
  setup : view -> M unit;
  dependencies : option (view -> list bool);
  revertOnUpdate : bool
}.

(** The hook's own state: the animations its context has recorded and the
    dependency values of the last run. *)
Record instance : Type := {
  context : list nat;
  memo : list bool
}.

(** An omitted dependency array is the empty array. *)
Definition effective_dependencies (c : component) (v : view) : list bool :=
  match dependencies c with
  | Some f => f v
  | None => []
  end.

(** With a non-empty dependency array and no [revertOnUpdate], the hook
    defers the cleanup of its context to unmount. *)
Definition deferCleanup (c : component) (v : view) : bool :=
  negb (Nat.eqb (length (effective_dependencies c v)) 0) && negb (revertOnUpdate c).

(** The callback runs inside the context, which records what it creates. *)
Definition run_callback (c : component) (v : view) (st : instance * world)
  : instance * world :=
  let w := snd st in
  let w' := exec (setup c v) w in
  ({| context := context (fst st) ++
                 seq (length (animations w))
                     (length (animations w') - length (animations w))%nat;
      memo := effective_dependencies c v |},
   w').

(** First render. *)
Definition mount (c : component) (v : view) (w : world) : instance * world :=
  run_callback c v ({| context := []; memo := [] |}, w).

(** A later render: the effect runs again only when a dependency changed,
    after reverting the context unless the cleanup is deferred. *)
Definition render (c : component) (v : view) (st : instance * world)
  : instance * world :=
  if bool_decide (effective_dependencies c v = memo (fst st)) then st
  else if deferCleanup c v then run_callback c v st
  else run_callback c v
         ({| context := []; memo := memo (fst st) |}, revert (context (fst st)) (snd st)).


(** A mount followed by a sequence of renders. *)
Definition session (c : component) (v0 : view) (vs : list view) (w : world)
  : instance * world :=
  fold_left (fun st v => render c v st) vs (mount c v0 w).

End React.

(** ** The sections *)

Module HeroSection.
Import Dom Gsap React.
#[local] Open Scope Z_scope.

Definition isMobile := max_width 768.
Definition isTablet := max_width 1024.

Definition setup (v : view) : M unit :=
  if negb (fontsLoaded v) then mret tt else
  titleSplit ← SplitText_create [[Class "hero-title"]] Chars;
  tl ← gsap_timeline [delay 1000];
  tl_to tl (Selector [[Class "hero-content"]])
    [prop "opacity" (Num 1); prop "y" (Num 0); ease "power1.inOut"] Default;;
  tl_to tl (Selector [[Class "hero-text-scroll"]])
    [duration 1000;
     prop "clipPath" (Str "polygon(0% 0%, 100% 0%, 100% 100%, 0% 100%)");
     ease "circ.out"]
    (FromEnd (-500));;
  tl_from tl (Targets (chars titleSplit))
    [prop "yPercent" (Num 200); stagger 20; ease "power2.out"]
    (FromEnd (-500));;
  heroTl ← gsap_timeline
    [scrollTrigger [trigger [[Class "hero-container"]]; start (Place "1% top");
                    end_ (Place "bottom top"); scrub ScrubTrue]];
  tl_to heroTl (Selector [[Class "hero-container"]])
    [prop "rotate" (Num 7); prop "scale" (Ratio 9 10); prop "yPercent" (Num 30);
     ease "power1.inOut"] Default.

Definition HeroSection : component :=
  {| React.setup := setup;
     dependencies := Some (fun v => [fontsLoaded v]);
     revertOnUpdate := false |}.

Definition markup (v : view) : node :=
  el "section" "bg-main-bg"
    [el "div" "hero-container"
       ((if isTablet v
         then (if isMobile v
               then [el "img" "absolute bottom-40 size-full object-cover" []]
               else []) ++
              [el "img" "absolute bottom-0 left-1/2 -translate-x-1/2 object-contain object-bottom" []]
         else [el "video" "absolute inset-0 w-full h-full object-cover" []]) ++
        [el "div" "hero-content opacity-0"
           [el "div" "overflow-hidden"
              [el "h1" "hero-title text-center" [Text "Freaking Delicious"]];
            el "div" "hero-text-scroll"
              [el "div" "hero-subtitle" [el "h1" "" [Text "Protein + Caffine "]]];
            el "h2" ""
              [Text "Live life to the fullest with SPYLT: Shatter boredom and embrace your inner kid with every deliciously smooth chug."];
            el "div" "hero-button" [el "p" "" [Text "Chug a SPYLT"]]]])].

End HeroSection.

Module FlavorTitle.
Import Dom Gsap React.
#[local] Open Scope Z_scope.

Definition setup (v : view) : M unit :=
  if negb (fontsLoaded v) then mret tt else
  firstTextSplit ← SplitText_create [[Class "first-text-split"]; [Tag "h1"]] Chars;
  secondTextSplit ← SplitText_create [[Class "second-text-split"]; [Tag "h1"]] Chars;
  gsap_from (Targets (chars firstTextSplit))
    [prop "yPercent" (Num 200); stagger 20; ease "power1.inOut";
     scrollTrigger [trigger [[Class "flavor-section"]]; start (Place "top 30%")]];;
  gsap_to (Selector [[Class "flavor-text-scroll"]])
    [duration 1000;
     prop "clipPath" (Str "polygon(0% 0%, 100% 0%, 100% 100%, 0% 100%)");
     scrollTrigger [trigger [[Class "flavor-section"]]; start (Place "top 10%")]];;
  gsap_from (Targets (chars secondTextSplit))
    [prop "yPercent" (Num 200); stagger 20; ease "power1.inOut";
     scrollTrigger [trigger [[Class "flavor-section"]]; start (Place "top 1%")]].

Definition FlavorTitle : component :=
  {| React.setup := setup;
     dependencies := Some (fun v => [fontsLoaded v]);
     revertOnUpdate := false |}.

Definition markup : node :=
  el "div" "general-title col-center h-full 2xl:gap-32 xl:gap-24 gap-16"
    [el "div" "overflow-hidden 2xl:py-0 py-3 first-text-split"
       [el "h1" "" [Text "We have 6"]];
     el "div" "flavor-text-scroll"
       [el "div" "bg-mid-brown pb-5 2xl:pt-0 pt-3 2xl:px-5 px-3"
          [el "h2" "text-milk" [Text "freaking"]]];
     el "div" "overflow-hidden 2xl:py-0 py-3 second-text-split"
       [el "h1" "" [Text "delicious flavors"]]].

End FlavorTitle.

Module FlavorSlider.
Import Dom Gsap React.
#[local] Open Scope Z_scope.

(** An entry of [flavorlists], of the constants module; the list is a
    parameter of the markup. *)
Record flavor : Type := { name : string; color : string; rotation : string }.

Definition isTablet := max_width 1024.

Definition setup (v : view) : M unit :=
  let scrollAmount := scrollWidth v - innerWidth v in
  (if negb (isTablet v) then
     tl ← gsap_timeline
       [scrollTrigger [trigger [[Class "flavor-section"]]; start (Place "2% top");
                       end_ (PlusPx (scrollAmount + 1500)); scrub ScrubTrue; pin true]];
     tl_to tl (Selector [[Class "flavor-section"]])
       [prop "x" (MinusPx (scrollAmount + 1500)); ease "power1.inOut"] Default
   else mret tt);;
  titleTl ← gsap_timeline
    [scrollTrigger [trigger [[Class "flavor-section"]]; start (Place "top top");
                    end_ (Place "bottom 80%"); scrub ScrubTrue]];
  tl_to titleTl (Selector [[Class "first-text-split"]])
    [prop "xPercent" (Num (-30)); ease "power1.inOut"] Default;;
  tl_to titleTl (Selector [[Class "flavor-text-scroll"]])
    [prop "xPercent" (Num (-22)); ease "power1.inOut"] WithPrevious;;
  tl_to titleTl (Selector [[Class "second-text-split"]])
    [prop "xPercent" (Num (-10)); ease "power1.inOut"] WithPrevious.

(** [useGSAP(() => {...})]: no dependency array. *)
Definition FlavorSlider : component :=
  {| React.setup := setup; dependencies := None; revertOnUpdate := false |}.

Definition markup (flavorlists : list flavor) : node :=
  el "div" "slider-wrapper"
    [el "div" "flavors"
       (map (fun f =>
               el "div"
                  ("relative z-30 lg:w-[50vw] w-96 lg:h-[70vh] md:w-[90vw] md:h-[50vh] h-80 flex-none "
                   +:+ rotation f)
                  [el "img" "absolute bottom-0" [];
                   el "img" "drinks" [];
                   el "img" "elements" [];
                   el "h1" "" [Text (name f)]])
            flavorlists)].

End FlavorSlider.

Module FlavorSection.
Import Dom.

Definition markup (flavorlists : list FlavorSlider.flavor) : node :=
  el "section" "flavor-section"
    [el "div" "h-full flex lg:flex-row flex-col items-center relative"
       [el "div" "lg:w-[57%] flex-none h-80 lg:h-full md:mt-20 xl:mt-0" [FlavorTitle.markup];
        el "div" "h-full" [FlavorSlider.markup flavorlists]]].

End FlavorSection.

Module MessageSection.
Import Dom Gsap React.
#[local] Open Scope Z_scope.

Definition setup (v : view) : M unit :=
  if negb (fontsLoaded v) then mret tt else
  firstMsgSplit ← SplitText_create [[Class "first-message"]] Words;
  secMsgSplit ← SplitText_create [[Class "second-message"]] Words;
  paragraphSplit ← SplitText_create [[Class "message-content"]; [Tag "p"]] WordsLines;
  removeAttribute_all [[Class "message-content"]; [HasAttr "aria-label"]] "aria-label";;
  gsap_to (Targets (words firstMsgSplit))
    [prop "color" (Str "#faeade"); ease "power1.in"; stagger 1000;
     scrollTrigger [trigger [[Class "message-content"]]; start (Place "top center");
                    end_ (Place "30% center"); scrub ScrubTrue]];;
  gsap_to (Targets (words secMsgSplit))
    [prop "color" (Str "#faeade"); ease "power1.in"; stagger 1000;
     scrollTrigger [trigger [[Class "second-message"]]; start (Place "top center");
                    end_ (Place "bottom center"); scrub ScrubTrue]];;
  revealTl ← gsap_timeline
    [delay 1000;
     scrollTrigger [trigger [[Class "msg-text-scroll"]]; start (Place "top 60%")]];
  tl_to revealTl (Selector [[Class "msg-text-scroll"]])
    [duration 1000;
     prop "clipPath" (Str "polygon(0% 0%, 100% 0%, 100% 100%, 0% 100%)");
     ease "circ.inOut"] Default;;
  paragraphTl ← gsap_timeline
    [scrollTrigger [trigger [[Class "message-content"]; [Tag "p"]];
                    start (Place "top center")]];
  tl_from paragraphTl (Targets (words paragraphSplit))
    [prop "yPercent" (Num 300); prop "rotate" (Num 3); ease "power1.inOut";
     duration 1000; stagger 10] Default.

Definition MessageSection : component :=
  {| React.setup := setup;
     dependencies := Some (fun v => [fontsLoaded v]);
     revertOnUpdate := false |}.

Definition markup : node :=
  el "section" "message-content"
    [el "div" "container mx-auto flex-center py-28 relative"
       [el "div" "w-full h-full"
          [el "div" "msg-wrapper"
             [el "h1" "first-message" [Text "Stir up your fearless past and"];
              el "div" "msg-text-scroll"
                [el "div" "bg-light-brown md:pb-5 pb-3 px-5"
                   [el "h2" "text-red-brown" [Text "Fuel Up"]]];
              el "h1" "second-message"
                [Text "your future with every gulp of Perfect Protein"]];
           el "div" "flex-center md:mt-20 mt-10"
             [el "div" "max-w-md px-10 flex-center overflow-hidden"
                [el "p" ""
                   [Text "Rev up your rebel spirit and feed the adventure of life with SPYLT, where you're one chug away from epic nostalgia and fearless fun."]]]]]].

End MessageSection.

Module NutritionSection.
Import Dom Gsap React.
#[local] Open Scope Z_scope.

(** An entry of [nutrientLists], of the constants module; the list is a
    parameter of the markup. *)
Record nutrient : Type := { label : string; amount : string }.

Definition isMobile := max_width 768.

(** The list shown: [nutrientLists.slice(0, 3)] on mobile. *)
Definition lists (nutrientLists : list nutrient) (v : view) : list nutrient :=
  if isMobile v then take 3 nutrientLists else nutrientLists.

Definition setup (v : view) : M unit :=
  if negb (fontsLoaded v) then mret tt else
  titleSplit ← SplitText_create [[Class "nutrition-title"]] Chars;
  paragraphSplit ← SplitText_create [[Class "nutrition-section"]; [Tag "p"]] WordsLines;
  removeAttribute_all [[Class "nutrition-section"]; [HasAttr "aria-label"]] "aria-label";;
  contentTl ← gsap_timeline
    [scrollTrigger [trigger [[Class "nutrition-section"]]; start (Place "top center")]];
  tl_from contentTl (Targets (chars titleSplit))
    [prop "yPercent" (Num 100); stagger 20; ease "power2.out"] Default;;
  tl_from contentTl (Targets (words paragraphSplit))
    [prop "yPercent" (Num 300); prop "rotate" (Num 3); ease "power1.inOut";
     duration 1000; stagger 10] Default;;
  titleTl ← gsap_timeline
    [scrollTrigger [trigger [[Class "nutrition-section"]]; start (Place "top 80%")]];
  tl_to titleTl (Selector [[Class "nutrition-text-scroll"]])
    [duration 1000; prop "opacity" (Num 1);
     prop "clipPath" (Str "polygon(100% 0, 0 0, 0 100%, 100% 100%)");
     ease "power1.inOut"] Default.

(** [useGSAP(() => {...}, [fontsLoaded, isMobile])] *)
Definition NutritionSection : component :=
  {| React.setup := setup;
     dependencies := Some (fun v => [fontsLoaded v; isMobile v]);
     revertOnUpdate := false |}.

Definition markup (shown : list nutrient) : node :=
  el "section" "nutrition-section"
    [el "img" "w-full object-cover" [];
     el "img" "big-img" [];
     el "div" "flex md:flex-row flex-col justify-between md:px-10 px-5 mt-14 md:mt-0"
       [el "div" "relative inline-block md:translate-y-20"
          [el "div" "general-title relative flex flex-col justify-center items-center gap-24"
             [el "div" "overflow-hidden place-self-start"
                [el "h1" "nutrition-title" [Text "It still does"]];
              el "div" "nutrition-text-scroll place-self-start"
                [el "div" "bg-yellow-brown pb-5 md:pt-0 pt-3 md:px-5 px-3"
                   [el "h2" "text-milk-yellow" [Text "Body Good"]]]]];
        el "div" "flex md:justify-center items-center translate-y-5"
          [el "div" "md:max-w-xs max-w-md"
             [el "p" "text-lg md:text-right text-balance font-paragraph"
                [Text "Milk contains a wide array of nutrients, including vitamins, minerals, and protein, and this is lactose free"]]];
        el "div" "nutrition-box"
          [el "div" "list-wrapper"
             (imap (fun index n =>
                      el "div" "relative flex-1 col-center"
                         (el "div" ""
                             [el "p" "md:text-lg text-sm font-paragraph" [Text (label n)];
                              el "p" "font-paragraph text-sm mt-2" [Text "up to"];
                              el "p" "text-2xl md:text-3xl tracking-tighter font-bold"
                                 [Text (amount n)]]
                          :: (if negb (Nat.eqb index (length shown - 1))
                              then [el "div" "spacer-border" []] else [])))
                   shown)]]].

End NutritionSection.

Module ClipPathTitle.
Import Dom.

Definition markup (title className : string) : node :=
  el "div" "general-title"
    [el "div" (className +:+ " border-[.5vw] text-nowrap opacity-0")
       [el "div" "pb-5 md:px-14 px-3 md:pt-0 pt-3" [el "h2" "" [Text title]]]].

End ClipPathTitle.

Module VideoPinSection.
Import Dom Gsap React.
#[local] Open Scope Z_scope.

Definition isMobile := max_width 768.

Definition setup (v : view) : M unit :=
  if negb (isMobile v) then
    tl ← gsap_timeline
      [scrollTrigger [trigger [[Class "vd-pin-section"]]; start (Place "-15% top");
                      end_ (Place "200% top"); scrub (ScrubSmooth 1500); pin true]];
    tl_to tl (Selector [[Class "video-box"]])
      [prop "clipPath" (Str "circle(100% at 50% 50%)"); ease "power1.inOut"] Default
  else mret tt.

Definition VideoPinSection : component :=
  {| React.setup := setup; dependencies := None; revertOnUpdate := false |}.

Definition markup : node :=
  el "section" "vd-pin-section"
    [el "div" "size-full video-box"
       [el "video" "" [];
        el "div" "abs-center md:scale-100 scale-200"
          [el "img" "spin-circle" [];
           el "div" "play-btn" [el "img" "size-[3vw] ml-[.5vw]" []]]]].

End VideoPinSection.

Module BenefitSection.
Import Dom Gsap React.
#[local] Open Scope Z_scope.

Definition reveal : vars :=
  [duration 1000; prop "opacity" (Num 1);
   prop "clipPath" (Str "polygon(0% 0%, 100% 0, 100% 100%, 0% 100%)");
   ease "circ.out"].

Definition setup (v : view) : M unit :=
  revealTl ← gsap_timeline
    [delay 1000;
     scrollTrigger [trigger [[Class "benefit-section"]]; start (Place "top 60%");
                    end_ (Place "top top"); scrub (ScrubSmooth 1500)]];
  tl_to revealTl (Selector [[Class "benefit-section"]; [Class "first-title"]]) reveal Default;;
  tl_to revealTl (Selector [[Class "benefit-section"]; [Class "second-title"]]) reveal Default;;
  tl_to revealTl (Selector [[Class "benefit-section"]; [Class "third-title"]]) reveal Default;;
  tl_to revealTl (Selector [[Class "benefit-section"]; [Class "fourth-title"]]) reveal Default.

Definition BenefitSection : component :=
  {| React.setup := setup; dependencies := None; revertOnUpdate := false |}.

Definition markup : node :=
  el "section" "benefit-section"
    [el "div" "container mx-auto pt-20"
       [el "div" "col-center"
          [el "p" ""
             [Text "Unlock the Advantages: "; el "br" "" [];
              Text "Explore the Key Benefits of Choosing SPYLT"];
           el "div" "mt-20 col-center"
             [ClipPathTitle.markup "Shelf stable" "first-title";
              ClipPathTitle.markup "Protein + Caffeine" "second-title";
              ClipPathTitle.markup "Infinitely recyclable" "third-title";
              ClipPathTitle.markup "Lactose free" "fourth-title"];
           el "div" "md:mt-0 mt-10" [el "p" "" [Text "And much more ..."]]]];
     el "div" "relative overlay-box" [VideoPinSection.markup]].

(** The same section with the class of the first title misspelt, so that the
    first step of the timeline selects nothing. *)
Definition markup_typo : node :=
  el "section" "benefit-section"
    [el "div" "container mx-auto pt-20"
       [el "div" "col-center"
          [el "div" "mt-20 col-center"
             [ClipPathTitle.markup "Shelf stable" "frist-title";
              ClipPathTitle.markup "Protein + Caffeine" "second-title";
              ClipPathTitle.markup "Infinitely recyclable" "third-title";
              ClipPathTitle.markup "Lactose free" "fourth-title"]]]].

End BenefitSection.

Module TestimonialSection.
Import Dom Gsap React.

(** An entry of [cards], of the constants module; the list is a parameter
    of the setup and of the markup. *)
Record card : Type := { src : string; rotation : string; translation : string }.

Definition isMobile := max_width 768.

Section Setup.
#[local] Open Scope Z_scope.
Variable cards : list card.

(** [cards.forEach((_, index) => { gsap.to(...) })] of the mobile branch *)
Definition reveal_card (index : nat) : M unit :=
  gsap_to (Selector [[Class "vd-card"; NthChild (index + 1)]])
    [prop "yPercent" (Num 0); prop "opacity" (Num 1); duration 500; ease "power1.inOut";
     scrollTrigger [trigger [[Class "testimonials-section"]];
                    start (TopPercent (80 - Z.of_nat index * 10));
                    end_ (TopPercent (60 - Z.of_nat index * 10));
                    scrub (ScrubSmooth 1000)]].

Fixpoint forEach_index (n : nat) (first : nat) (f : nat -> M unit) : M unit :=
  match n with
  | O => mret tt
  | S n' => f first;; forEach_index n' (S first) f
  end.

Definition setup (v : view) : M unit :=
  (if negb (isMobile v) then
     gsap_set (Selector [[Class "testimonials-section"]]) [prop "marginTop" (Str "-140vh")]
   else
     gsap_set (Selector [[Class "vd-card"]]) [prop "yPercent" (Num 150); prop "opacity" (Num 0)]);;
  if negb (isMobile v) then
    tl ← gsap_timeline
      [scrollTrigger [trigger [[Class "testimonials-section"]]; start (Place "top bottom");
                      end_ (Place "200% top"); scrub ScrubTrue]];
    tl_to tl (Selector [[Class "testimonials-section"]; [Class "first-title"]])
      [prop "xPercent" (Num 70)] Default;;
    tl_to tl (Selector [[Class "testimonials-section"]; [Class "sec-title"]])
      [prop "xPercent" (Num 25)] WithPrevious;;
    tl_to tl (Selector [[Class "testimonials-section"]; [Class "third-title"]])
      [prop "xPercent" (Num (-50))] WithPrevious;;
    pinTl ← gsap_timeline
      [scrollTrigger [trigger [[Class "testimonials-section"]]; start (Place "10% top");
                      end_ (Place "200% top"); scrub (ScrubSmooth 1500); pin true]];
    tl_from pinTl (Selector [[Class "vd-card"]])
      [prop "yPercent" (Num 150); stagger 200; ease "power1.inOut"] Default
  else
    tl ← gsap_timeline
      [scrollTrigger [trigger [[Class "testimonials-section"]]; start (Place "top 80%");
                      end_ (Place "bottom 20%"); scrub (ScrubSmooth 1000)]];
    tl_from tl (Selector [[Class "testimonials-section"]; [Class "first-title"]])
      [prop "xPercent" (Num 70); prop "opacity" (Num 0)] Default;;
    tl_from tl (Selector [[Class "testimonials-section"]; [Class "sec-title"]])
      [prop "xPercent" (Num 25); prop "opacity" (Num 0)] WithPrevious;;
    tl_from tl (Selector [[Class "testimonials-section"]; [Class "third-title"]])
      [prop "xPercent" (Num (-50)); prop "opacity" (Num 0)] WithPrevious;;
    forEach_index (length cards) 0%nat reveal_card.

(** [useGSAP(() => {...})]: no dependency array. *)
Definition TestimonialSection : component :=
  {| React.setup := setup; dependencies := None; revertOnUpdate := false |}.

Definition markup : node :=
  el "section" "testimonials-section"
    [el "div" "absolute size-full flex flex-col items-center pt-[40vw] md:pt-[5vw]"
       [el "h1" "text-black first-title" [Text "What's"];
        el "h1" "text-light-brown sec-title" [Text "Everyone"];
        el "h1" "text-black third-title" [Text "Talking"]];
     el "div" "pin-box"
       (map (fun c =>
               el "div" ("vd-card " +:+ translation c +:+ " " +:+ rotation c)
                  [el "video" "size-full object-cover" []])
            cards)].

End Setup.

(** *** The hover handlers *)

(** A video element, as far as the handlers touch it. *)
Record video : Type := { video_src : string; paused : bool }.

(** [video.play()] and [video.pause()] of the media element. *)
Definition play (vd : video) : video := {| video_src := video_src vd; paused := false |}.
Definition pause (vd : video) : video := {| video_src := video_src vd; paused := true |}.

(** The section's memory: the video elements of the page (an element is
    named by its index in [videos]) and [vdRef.current], whose slots hold
    an element, or nothing ([undefined] in a hole, [null] after the element
    is gone). *)
Record refs : Type := {
  videos : list video;
  vdRef : list (option nat)
}.

Inductive error : Type := TypeError.

(** [arr[index] = x]: an index past the end extends the array, leaving holes
    in between. *)
Definition array_set {A : Type} (index : nat) (x : option A) (arr : list (option A))
  : list (option A) :=
  if (index <? length arr)%nat then <[index := x]> arr
  else arr ++ replicate (index - length arr) None ++ [x].

(** The ref callback [(el) => (vdRef.current[index] = el)]. *)
Definition ref_callback (index : nat) (el : option nat) (r : refs) : refs :=
  {| videos := videos r; vdRef := array_set index el (vdRef r) |}.

(** [const video = vdRef.current[index]; video.play()]: reading a missing
    slot gives no element, and calling a method on it throws. *)
Definition handlePlay (index : nat) (r : refs) : error + refs :=
  match vdRef r !! index with
  | Some (Some video) => inr {| videos := alter play video (videos r); vdRef := vdRef r |}
  | Some None | None => inl TypeError
  end.

Definition handlePause (index : nat) (r : refs) : error + refs :=
  match vdRef r !! index with
  | Some (Some video) => inr {| videos := alter pause video (videos r); vdRef := vdRef r |}
  | Some None | None => inl TypeError
  end.

(** [onMouseEnter={() => handlePlay(index)}] and
    [onMouseLeave={() => handlePause(index)}] of card [index]. *)
Definition onMouseEnter (index : nat) : refs -> error + refs := handlePlay index.
Definition onMouseLeave (index : nat) : refs -> error + refs := handlePause index.

(** The hover events of the page: the pointer enters or leaves the card
    [index].  An error thrown by a handler is reported and the page stays as
    it was; the events that follow are still handled. *)
Inductive hover : Type :=
| Enter (index : nat)
| Leave (index : nat).

Definition card_of (e : hover) : nat :=
  match e with Enter index | Leave index => index end.

Definition dispatch (e : hover) : refs -> error + refs :=
  match e with
  | Enter index => onMouseEnter index
  | Leave index => onMouseLeave index
  end.

Definition handle_event (st : list error * refs) (e : hover) : list error * refs :=
  match dispatch e (snd st) with
  | inr r => (fst st, r)
  | inl err => (fst st ++ [err], snd st)
  end.

Definition hovers (es : list hover) (r : refs) : list error * refs :=
  fold_left handle_event es ([], r).

(** The last event of [es] that concerns card [i], if any. *)
Definition last_on (i : nat) (es : list hover) : option hover :=
  find (fun e => Nat.eqb (card_of e) i) (rev es).

(** Rendering the cards: card [index] renders video element [index] (not
    playing: the element has no [autoPlay]) and its ref callback stores it. *)
Definition attach_refs (n : nat) (r : refs) : refs :=
  fold_left (fun r index => ref_callback index (Some index) r) (seq 0 n) r.

Definition render_cards (cards : list card) : refs :=
  attach_refs (length cards)
    {| videos := map (fun c => {| video_src := src c; paused := true |}) cards;
       vdRef := [] |}.

(** Every card of the page has its own video in its slot. *)
Definition cards_mounted (r : refs) : Prop :=
  vdRef r = map Some (seq 0 (length (videos r))).

Definition sample_cards : list card :=
  map (fun i => {| src := "/videos/f" +:+ i +:+ ".mp4"; rotation := "rotate-z-[-10deg]";
                   translation := "translate-y-[-5%]" |})
      ["1"; "2"; "3"; "4"].

End TestimonialSection.

(** ** A component on the page: [useFontsLoaded] feeding [useGSAP] *)

Module Page.
Import Gsap React.

(** A mounted component that calls both hooks: the state of its readiness
    hook and of its [useGSAP] call, the latter with the page it animates. *)
Record mounted : Type := {
  hook : Fonts.hook;
  gsap : instance * world
}.

Section Component.
Variable c : component.
Variable doc : Fonts.host.
Variables width slider : Z.

(** What a render reads, given the state of the readiness hook. *)
Definition view_of (h : Fonts.hook) : view :=
  {| fontsLoaded := Fonts.fontsLoaded h; innerWidth := width; scrollWidth := slider |}.

(** The first render sees [useState(false)] and runs the setup with it; the
    effect of the readiness hook runs after it, and a render follows. *)
Definition first_render (d : Dom.node) : mounted :=
  {| hook := Fonts.mount doc;
     gsap := render c (view_of (Fonts.mount doc))
               (mount c (view_of Fonts.useState_false) (blank d)) |}.

(** One turn of the event loop, and the render that follows it. *)
Definition turn (m : mounted) : mounted :=
  {| hook := Fonts.tick doc (hook m);
     gsap := render c (view_of (Fonts.tick doc (hook m))) (gsap m) |}.

Fixpoint after (d : Dom.node) (n : nat) : mounted :=
  match n with
  | O => first_render d
  | S n' => turn (after d n')
  end.

End Component.

(** The sections that cut text into characters or words. *)
Definition segmenting : list component :=
  [HeroSection.HeroSection; MessageSection.MessageSection;
   FlavorTitle.FlavorTitle; NutritionSection.NutritionSection].

(** The engine emptied of its animations, the page otherwise as it is: what a
    setup builds on it, it builds from scratch. *)
Definition forget (w : world) : world :=
  {| document := document w; animations := []; splits := splits w; sets := sets w |}.

Definition desktop (ready : bool) : view :=
  {| fontsLoaded := ready; innerWidth := 1200; scrollWidth := 4000 |}.

Definition mobile (ready : bool) : view :=
  {| fontsLoaded := ready; innerWidth := 400; scrollWidth := 4000 |}.

(** The sections that give [useGSAP] a dependency array. *)
Definition with_dependencies : list component :=
  [HeroSection.HeroSection; FlavorTitle.FlavorTitle;
   MessageSection.MessageSection; NutritionSection.NutritionSection].

(** A setup only appends: what the engine held is still there, unchanged, and
    what is added is what the setup builds on an empty engine. *)
Definition appends (c : component) : Prop :=
  forall v w,
    animations (exec (setup c v) w) =
    animations w ++ animations (exec (setup c v) (forget w)).

Definition sample_nutrients : list NutritionSection.nutrient :=
  [ {| NutritionSection.label := "Potassium"; NutritionSection.amount := "245mg" |};
    {| NutritionSection.label := "Calcium"; NutritionSection.amount := "500mg" |} ].

(** Two pages that differ only in that the engine of the first holds the
    animations [pre] in front of what the engine of the second holds. *)
Definition ahead (pre : list animation) (w w0 : world) : Prop :=
  animations w = pre ++ animations w0 /\
  document w = document w0 /\ splits w = splits w0 /\ sets w = sets w0.

(** Two runs of setup code that keep the pages so related; [R] relates what
    they return (timeline handles differ by the length of [pre]). *)
Definition sim {A : Type} (R : A -> A -> Prop) (pre : list animation) (c c0 : M A) : Prop :=
  forall w w0, ahead pre w w0 ->
    R (fst (c w)) (fst (c0 w0)) /\ ahead pre (snd (c w)) (snd (c0 w0)).

Definition shifted (pre : list animation) (h h0 : nat) : Prop := h = length pre + h0.

(** Two pages that differ only in that the first holds the animations, the
    splits and the immediate sets of [pre] in front of what the second
    holds; and two runs of setup code that keep the pages so related. *)
Definition behind (pre w w0 : world) : Prop :=
  animations w = animations pre ++ animations w0 /\
  document w = document w0 /\
  splits w = splits pre ++ splits w0 /\
  sets w = sets pre ++ sets w0.

Definition keeps {A : Type} (R : A -> A -> Prop) (pre : world) (c c0 : M A) : Prop :=
  forall w w0, behind pre w w0 ->
    R (fst (c w)) (fst (c0 w0)) /\ behind pre (snd (c w)) (snd (c0 w0)).


(** The elements of a document that carry an [aria-label]. *)
Definition labelled (d : Dom.node) : list Dom.path :=
  Dom.querySelectorAll [[Dom.HasAttr "aria-label"]] d.

Definition sample_flavors : list FlavorSlider.flavor :=
  [ {| FlavorSlider.name := "Chocolate Milk"; FlavorSlider.color := "brown";
       FlavorSlider.rotation := "md:rotate-[-8deg] rotate-0" |};
    {| FlavorSlider.name := "Strawberry Milk"; FlavorSlider.color := "red";
       FlavorSlider.rotation := "md:rotate-[8deg] rotate-0" |} ].

(** The hero section mounted on a host whose font promise settles [t] ms
    after mount, after [n] turns of the event loop. *)
Definition hero_page (t : nat) (width slider : Z) (d : Dom.node) (n : nat) : mounted :=
  after HeroSection.HeroSection (Fonts.host_ready_at t) width slider d n.

(** The document after the hero title has been split. *)
Definition hero_split (d : Dom.node) : Dom.node :=
  fold_left label (Dom.querySelectorAll [[Dom.Class "hero-title"]] d) d.

(** The characters of the hero title. *)
Definition hero_chars (d : Dom.node) : list target :=
  flat_map (fun p => fst (pieces Chars d p)) (Dom.querySelectorAll [[Dom.Class "hero-title"]] d).

(** The nutrition section on a desktop page: mounted before the fonts are
    in, rendered again once they are, and then again after the window is
    narrowed to 400px. *)
Definition nutrition_loaded : instance * world :=
  session NutritionSection.NutritionSection (desktop false) [desktop true]
    (blank (NutritionSection.markup sample_nutrients)).

Definition nutrition_resized : instance * world :=
  render NutritionSection.NutritionSection (mobile true) nutrition_loaded.

End Page.

(** ** The label cleanup, read as a recursion over the document *)

Module Cleanup.
Import Dom.

(** Induction over a document, with the property known of every child. *)
Fixpoint node_induction (P : node -> Prop)
    (HText : forall s, P (Text s))
    (HEl : forall tg cs attrs kids, Forall P kids -> P (El tg cs attrs kids))
    (t : node) : P t :=
  match t with
  | Text s => HText s
  | El tg cs attrs kids =>
      HEl tg cs attrs kids
        ((fix all (ks : list node) : Forall P ks :=
            match ks with
            | [] => @List.Forall_nil node P
            | k :: ks' =>
                @List.Forall_cons node P k ks' (node_induction P HText HEl k) (all ks')
            end) kids)
  end.

(** The children part of [elements], by name. *)
Definition elements_each (parent : node) (k : nat) (ancs : list (node * nat)) (p : path)
  : list node -> nat -> nat -> list (path * node * nat * list (node * nat)) :=
  fix each (ks : list node) (i : nat) (e : nat) :=
    match ks with
    | [] => []
    | c :: ks' =>
        elements ((parent, k) :: ancs) (p ++ [i]) e c
        ++ each ks' (S i) (if is_element c then S e else e)
    end.

Section Scoped.
(** A section class and one more test: the selector is [".c s"], the
    elements below an element of class [c] that pass [s]. *)
Variable c : string.
Variable s : simple.

Definition scoped : selector := [[Class c]; [s]].

Definition has_class (cs : list string) : bool := existsb (String.eqb c) cs.

(** Whether an element passes [s], for the tests that do not look at the
    position of the element among its siblings. *)
Definition passes (tg : string) (cs : list string) (attrs : list (string * string)) : bool :=
  matches_simple (El tg cs attrs []) 0 s.

Definition position_free : Prop :=
  match s with NthChild _ => False | _ => True end.

(** The paths [".c s"] selects below [t], [u] telling whether [t] already
    lies below an element of class [c]. *)
Fixpoint scan (u : bool) (p : path) (t : node) : list path :=
  match t with
  | Text _ => []
  | El tg cs attrs kids =>
      (if passes tg cs attrs && u then [p] else []) ++
      (fix each (ks : list node) (i : nat) : list path :=
         match ks with
         | [] => []
         | k :: ks' => scan (has_class cs || u) (p ++ [i]) k ++ each ks' (S i)
         end) kids 0
  end.

Definition scan_each (u : bool) (p : path) : list node -> nat -> list path :=
  fix each (ks : list node) (i : nat) : list path :=
    match ks with
    | [] => []
    | k :: ks' => scan u (p ++ [i]) k ++ each ks' (S i)
    end.

(** What [querySelectorAll] keeps of a list of elements. *)
Definition selected (l : list (path * node * nat * list (node * nat))) : list path :=
  map (fun x => fst (fst (fst x)))
      (List.filter (fun x => matches scoped (snd (fst (fst x))) (snd (fst x)) (snd x)) l).

(** The tests that do not look at the attributes either. *)
Definition attribute_blind : Prop :=
  match s with Tag _ | Class _ => True | _ => False end.

End Scoped.

Section Strip.
Variables c a : string.

(** The document with [a] removed from every element below an element of
    class [c]. *)
Fixpoint strip (u : bool) (t : node) : node :=
  match t with
  | Text _ => t
  | El tg cs attrs kids =>
      El tg cs
         (if u then List.filter (fun kv => negb (String.eqb (fst kv) a)) attrs else attrs)
         (map (strip (has_class c cs || u)) kids)
  end.

(** The loop of the sections:
    [querySelectorAll(".c [a]").forEach((el) => el.removeAttribute(a))]. *)
Definition remove_all (paths : list path) (d : node) : node :=
  fold_left (fun d p => update (removeAttribute a) p d) paths d.

End Strip.

End Cleanup.

(** ** The site as a whole *)

Module Site.
Import Gsap React.
#[local] Open Scope Z_scope.

(** The components that call [useGSAP], each with the viewport width above
    which its setup asks for pinning ([None]: it never does). *)
Definition components (cards : list TestimonialSection.card)
  : list (component * option Z) :=
  [ (HeroSection.HeroSection, None);
    (MessageSection.MessageSection, None);
    (FlavorTitle.FlavorTitle, None);
    (FlavorSlider.FlavorSlider, Some 1024);
    (NutritionSection.NutritionSection, None);
    (BenefitSection.BenefitSection, None);
    (VideoPinSection.VideoPinSection, Some 768);
    (TestimonialSection.TestimonialSection cards, Some 768) ].

(** The tween of the mobile branch of the testimonials for the card at
    [index], on document [d]. *)
Definition card_tween (d : Dom.node) (index : nat) : animation :=
  {| live := true;
     what := Tween
       {| dir := To;
          targets := map Elem (Dom.querySelectorAll
                                 [[Dom.Class "vd-card"; Dom.NthChild (index + 1)]] d);
          step_vars :=
            [prop "yPercent" (Num 0); prop "opacity" (Num 1); duration 500;
             ease "power1.inOut";
             scrollTrigger [trigger [[Dom.Class "testimonials-section"]];
                            start (TopPercent (80 - Z.of_nat index * 10));
                            end_ (TopPercent (60 - Z.of_nat index * 10));
                            scrub (ScrubSmooth 1000)]];
          startTime := 0; totalDuration := 500 |} |}.

(** The three title steps of the testimonials, [dr] being [To] on desktop
    and [From] on mobile, with the properties each branch gives them. *)
Definition title_steps (dr : direction) (d : Dom.node) (v1 v2 v3 : vars) : list step :=
  [ {| dir := dr;
       targets := map Elem (Dom.querySelectorAll
                              [[Dom.Class "testimonials-section"]; [Dom.Class "first-title"]] d);
       step_vars := v1; startTime := 0; totalDuration := 500 |};
    {| dir := dr;
       targets := map Elem (Dom.querySelectorAll
                              [[Dom.Class "testimonials-section"]; [Dom.Class "sec-title"]] d);
       step_vars := v2; startTime := 0; totalDuration := 500 |};
    {| dir := dr;
       targets := map Elem (Dom.querySelectorAll
                              [[Dom.Class "testimonials-section"]; [Dom.Class "third-title"]] d);
       step_vars := v3; startTime := 0; totalDuration := 500 |} ].

(** The readiness value a setup is run with, at a given width. *)
Definition ready_view (width slider : Z) : view :=
  {| fontsLoaded := true; innerWidth := width; scrollWidth := slider |}.

(** How many targets each step of each animation acts on. *)
Definition target_counts (w : world) : list (list nat) :=
  map (fun a => match what a with
                | Timeline _ steps => map (fun s => length (targets s)) steps
                | Tween s => [length (targets s)]
                end)
      (animations w).

(** The start offsets of the steps of each animation. *)
Definition start_times (w : world) : list (list Z) :=
  map (fun a => match what a with
                | Timeline _ steps => map startTime steps
                | Tween s => [startTime s]
                end)
      (animations w).

End Site.

(** ** The shell: App *)

Module App.

(** The argument of [ScrollSmoother.create]. *)
Record smootherVars : Type := { smooth : Z; effects : bool }.

(** The callback handed to [requestAnimationFrame]. *)
Inductive frame_callback : Type := initScrollSmoother.

(** The mounted shell: its readiness hook, the dependency values of the last
    run of its [useGSAP] callback, the callbacks waiting for the next
    animation frame, and the smooth-scroll surfaces created so far. *)
Record shell : Type := {
  hook : Fonts.hook;
  memo : list bool;
  frames : list frame_callback;
  smoothers : list smootherVars
}.

Definition requestAnimationFrame (cb : frame_callback) (s : shell) : shell :=
  {| hook := hook s; memo := memo s; frames := frames s ++ [cb]; smoothers := smoothers s |}.

(** [ScrollSmoother.create({ smooth: 3, effects: true })] *)
Definition run_frame_callback (s : shell) (cb : frame_callback) : shell :=
  match cb with
  | initScrollSmoother =>
      {| hook := hook s; memo := memo s; frames := frames s;
         smoothers := smoothers s ++ [{| smooth := 3; effects := true |}] |}
  end.

(** The callback given to [useGSAP]. *)
Definition setup (fontsLoaded : bool) (s : shell) : shell :=
  if negb fontsLoaded then s
  else requestAnimationFrame initScrollSmoother s.

(** [useGSAP(callback, [fontsLoaded])] after a render: the callback runs when
    the dependency differs from the one of its last run. *)
Definition useGSAP (s : shell) : shell :=
  let dependencies := [Fonts.fontsLoaded (hook s)] in
  if bool_decide (dependencies = memo s) then s
  else setup (Fonts.fontsLoaded (hook s))
         {| hook := hook s; memo := dependencies; frames := frames s;
            smoothers := smoothers s |}.

(** The first render sees [useState(false)]; the effect of the readiness
    hook runs after the setup, and a render follows. *)
Definition first_render (doc : Fonts.host) : shell :=
  let s0 := useGSAP {| hook := Fonts.useState_false; memo := []; frames := [];
                       smoothers := [] |} in
  useGSAP {| hook := Fonts.mount doc; memo := memo s0; frames := frames s0;
             smoothers := smoothers s0 |}.

(** What happens to the mounted shell: a turn of the event loop, followed by
    a render, or an animation frame, which runs the callbacks requested
    before it. *)
Inductive event : Type := Turn | Frame.

Definition step (doc : Fonts.host) (s : shell) (e : event) : shell :=
  match e with
  | Turn =>
      useGSAP {| hook := Fonts.tick doc (hook s); memo := memo s; frames := frames s;
                 smoothers := smoothers s |}
  | Frame =>
      fold_left run_frame_callback (frames s)
        {| hook := hook s; memo := memo s; frames := []; smoothers := smoothers s |}
  end.

Definition play (doc : Fonts.host) (es : list event) : shell :=
  fold_left (step doc) es (first_render doc).

(** The loading placeholder is rendered while the signal is false. *)
Definition shows_loading (s : shell) : bool := negb (Fonts.fontsLoaded (hook s)).

End App.

(* ===================================================================== *)
(** * Part II. Properties                                                 *)
(* ===================================================================== *)

Section FontsFacts.
Import Fonts.

Lemma setFontsLoaded_true_loaded h : fontsLoaded (setFontsLoaded true h) = true.
Proof. reflexivity. Qed.

Lemma checkFonts_keeps doc h :
  fontsLoaded h = true -> fontsLoaded (checkFonts doc h) = true.
Proof.
  intros Hh. unfold checkFonts.
  destruct (fonts (doc (now h))) as [f|]; [|exact Hh].
  destruct (check f) as [chk|]; [|exact Hh].
  destruct (chk antonio_font && chk proxima_font); [reflexivity|exact Hh].
Qed.

Lemma run_task_keeps doc t h :
  fontsLoaded h = true -> fontsLoaded (run_task doc t h) = true.
Proof. destruct t; simpl; auto using checkFonts_keeps. Qed.

Lemma tick_keeps doc h :
  fontsLoaded h = true -> fontsLoaded (tick doc h) = true.
Proof.
  intros Hh. unfold tick.
  destruct (earliest (timers h)) as [[[due t] rest]|]; [|exact Hh].
  apply run_task_keeps. exact Hh.
Qed.

Lemma checkFonts_step doc h :
  fontsLoaded h = false -> timers h = [] -> setter_calls h = 0 ->
  settled (checkFonts doc h) /\
  setter_calls (checkFonts doc h) = (if fontsLoaded (checkFonts doc h) then 1 else 0).
Proof.
  intros Hf Ht Hs. unfold checkFonts.
  destruct (fonts (doc (now h))) as [f|].
  - destruct (check f) as [chk|].
    + destruct (chk antonio_font && chk proxima_font); unfold settled; simpl;
        rewrite ?Ht, ?Hs, ?Hf; simpl; repeat split; auto; discriminate.
    + unfold settled; simpl; rewrite ?Ht, ?Hs, ?Hf; simpl; repeat split; auto; discriminate.
  - unfold settled; simpl; rewrite ?Ht, ?Hs, ?Hf; simpl; repeat split; auto; discriminate.
Qed.

Lemma mount_settled doc : settled (mount doc).
Proof.
  unfold mount, effect. simpl.
  destruct (fonts (doc 0)) as [f|].
  - destruct (ready f) as [[t|]|].
    + unfold settled; simpl; repeat split; auto; discriminate.
    + unfold settled; simpl; repeat split; auto; discriminate.
    + apply checkFonts_step; reflexivity.
  - apply checkFonts_step; reflexivity.
Qed.

Lemma tick_settled doc h : settled h -> settled (tick doc h).
Proof.
  intros (Hlen & Hnil & Hcalls). unfold tick.
  destruct (timers h) as [|[due t] q] eqn:Hq; simpl.
  { unfold settled. rewrite Hq. auto. }
  destruct q as [|? ?]; [|simpl in Hlen; lia]. simpl.
  destruct (fontsLoaded h) eqn:Hf; [specialize (Hnil eq_refl); discriminate|].
  destruct t; simpl.
  - unfold settled; simpl; repeat split; auto.
  - apply checkFonts_step; simpl; auto.
  - unfold settled; simpl; repeat split; auto.
Qed.

Lemma run_settled doc n : settled (run doc n).
Proof. induction n; simpl; auto using mount_settled, tick_settled. Qed.

Lemma rises_snoc l x b :
  last l = Some x ->
  rises (l ++ [b]) = rises l + (if negb x && b then 1 else 0).
Proof.
  induction l as [|a l IH]; intros Hl; [discriminate|].
  destruct l as [|c l'].
  - simpl in Hl. injection Hl as ->. simpl. lia.
  - change (rises ((a :: c :: l') ++ [b]))
      with ((if negb a && c then 1 else 0) + rises ((c :: l') ++ [b])).
    rewrite IH by exact Hl. simpl. lia.
Qed.

Lemma falls_snoc l x b :
  last l = Some x ->
  falls (l ++ [b]) = falls l + (if x && negb b then 1 else 0).
Proof.
  induction l as [|a l IH]; intros Hl; [discriminate|].
  destruct l as [|c l'].
  - simpl in Hl. injection Hl as ->. simpl. lia.
  - change (falls ((a :: c :: l') ++ [b]))
      with ((if a && negb c then 1 else 0) + falls ((c :: l') ++ [b])).
    rewrite IH by exact Hl. simpl. lia.
Qed.

Lemma signal_S doc n :
  signal doc (S n) = signal doc n ++ [fontsLoaded (run doc (S n))].
Proof.
  unfold signal. rewrite (seq_S (S n) 0), map_app. reflexivity.
Qed.

Lemma signal_last doc n : last (signal doc n) = Some (fontsLoaded (run doc n)).
Proof.
  destruct n as [|n]; [reflexivity|].
  rewrite signal_S. apply last_snoc.
Qed.

Lemma signal_counts doc n :
  falls (signal doc n) = 0 /\
  rises (signal doc n) = (if fontsLoaded (run doc n) then 1 else 0).
Proof.
  induction n as [|n [IHf IHr]].
  - unfold signal. simpl. destruct (fontsLoaded (mount doc)); auto.
  - rewrite signal_S.
    rewrite (falls_snoc _ _ _ (signal_last doc n)), (rises_snoc _ _ _ (signal_last doc n)).
    rewrite IHf, IHr.
    destruct (fontsLoaded (run doc n)) eqn:Hn.
    + simpl (run doc (S n)). rewrite (tick_keeps doc _ Hn). auto.
    + destruct (fontsLoaded (run doc (S n))); auto.
Qed.

Lemma checkFonts_armed doc k :
  checkFonts doc (armed k) =
  match poll doc k with
  | BothLoaded => setFontsLoaded true (armed k)
  | NotYet => setTimeout CheckFonts 100 (armed k)
  | NoCheck => setTimeout AssumeLoaded 1000 (armed k)
  end.
Proof.
  unfold checkFonts, poll. change (now (armed k)) with (100 * k).
  destruct (fonts (doc (100 * k))) as [f|]; [|reflexivity].
  destruct (check f) as [chk|]; [|reflexivity].
  destruct (chk antonio_font && chk proxima_font); reflexivity.
Qed.

Lemma mount_fallback doc :
  promise_unavailable doc -> mount doc = checkFonts doc (armed 0).
Proof.
  unfold promise_unavailable, mount, effect. simpl.
  destruct (fonts (doc 0)) as [f|]; [|reflexivity].
  intros ->. reflexivity.
Qed.

Lemma tick_repoll doc k :
  tick doc (setTimeout CheckFonts 100 (armed k)) = checkFonts doc (armed (S k)).
Proof.
  unfold tick. simpl timers. simpl earliest. cbv iota beta.
  simpl run_task. f_equal. unfold armed. simpl. f_equal. lia.
Qed.

(** While the polls find the fonts missing, the fallback path keeps polling:
    turn [n] of the loop is the [n]-th poll. *)
Lemma run_polling doc n :
  promise_unavailable doc ->
  (forall k, k < n -> poll doc k = NotYet) ->
  run doc n = checkFonts doc (armed n).
Proof.
  intros Hu. induction n as [|n IH]; intros Hk.
  - apply mount_fallback, Hu.
  - simpl. rewrite IH by (intros; apply Hk; lia).
    rewrite checkFonts_armed, (Hk n) by lia. apply tick_repoll.
Qed.

Lemma tick_idle doc (h : hook) : timers h = [] -> tick doc h = h.
Proof. intros Ht. unfold tick. rewrite Ht. reflexivity. Qed.

Lemma run_quiet doc n m :
  timers (run doc n) = [] -> run doc (n + m) = run doc n.
Proof.
  intros Ht. induction m as [|m IH].
  - rewrite Nat.add_0_r. reflexivity.
  - rewrite Nat.add_succ_r. simpl. rewrite IH. apply tick_idle, Ht.
Qed.

Lemma run_keeps doc n m :
  fontsLoaded (run doc n) = true -> fontsLoaded (run doc (n + m)) = true.
Proof.
  intros Hn. induction m as [|m IH].
  - rewrite Nat.add_0_r. exact Hn.
  - rewrite Nat.add_succ_r. simpl. apply tick_keeps, IH.
Qed.

(** On the fallback path the signal after [k + n] turns is what the polls
    from the [k]-th on decide, given that the polls before it found a font
    missing. *)
Lemma fallback_run doc n :
  promise_unavailable doc ->
  forall k, (forall j, j < k -> poll doc j = NotYet) ->
    fontsLoaded (run doc (k + n)) = fallback_fired doc k n.
Proof.
  intros Hu. induction n as [|n IH]; intros k Hk.
  - rewrite Nat.add_0_r, (run_polling doc k Hu Hk), checkFonts_armed. simpl.
    destruct (poll doc k); reflexivity.
  - cbn [fallback_fired]. destruct (poll doc k) eqn:Hp.
    + apply run_keeps. rewrite (run_polling doc k Hu Hk), checkFonts_armed, Hp. reflexivity.
    + replace (k + S n) with (S k + n) by lia. apply IH.
      intros j Hj. destruct (decide (j = k)) as [->|Hne]; [exact Hp | apply Hk; lia].
    + replace (k + S n) with (S k + n) by lia. apply run_keeps.
      simpl run. rewrite (run_polling doc k Hu Hk), checkFonts_armed, Hp. reflexivity.
Qed.

(** The signal is true exactly when a completion path has fired: the promise
    has settled and its continuation has run, a poll has found both fonts,
    or the forcing timer has come due. *)
Lemma signal_follows_host doc n : fontsLoaded (run doc n) = completion_fired doc n.
Proof.
  unfold completion_fired.
  destruct (fonts (doc 0)) as [f|] eqn:Hf.
  - destruct (ready f) as [[t|]|] eqn:Hr.
    + assert (Hm : mount doc = then_ (Resolves t) ReadyThen useState_false).
      { unfold mount, effect. simpl. rewrite Hf, Hr. reflexivity. }
      destruct n as [|n].
      * simpl. rewrite Hm. reflexivity.
      * change (S n) with (1 + n). apply run_keeps.
        change (run doc 1) with (tick doc (mount doc)). rewrite Hm. reflexivity.
    + assert (Hm : run doc 0 = useState_false).
      { unfold run, mount, effect. simpl. rewrite Hf, Hr. reflexivity. }
      change n with (0 + n). rewrite run_quiet; rewrite Hm; reflexivity.
    + apply (fallback_run doc n) with (k := 0); [|intros j Hj; lia].
      unfold promise_unavailable. rewrite Hf. exact Hr.
  - apply (fallback_run doc n) with (k := 0); [|intros j Hj; lia].
    unfold promise_unavailable. rewrite Hf. exact I.
Qed.

(** C1. The value returned by [useFontsLoaded] is a one-shot latch: over every
    mount, on every host, it is false at the first render, it never goes from
    true to false, and it goes from false to true at most once: exactly once
    if a completion path has fired on the host (the promise has settled, a
    poll has found both fonts loaded, or the forcing timer has come due),
    and not at all otherwise.  The setter is called exactly as often. *)
Theorem fontsLoaded_one_shot_latch (doc : host) (n : nat) :
  head (signal doc n) = Some false /\
  falls (signal doc n) = 0 /\
  rises (signal doc n) <= 1 /\
  rises (signal doc n) = (if completion_fired doc n then 1 else 0) /\
  fontsLoaded (run doc n) = completion_fired doc n /\
  rises (signal doc n) = setter_calls (run doc n).
Proof.
  destruct (signal_counts doc n) as [Hf Hr].
  destruct (run_settled doc n) as (_ & _ & Hc).
  pose proof (signal_follows_host doc n) as Hh.
  repeat split.
  - exact Hf.
  - rewrite Hr. destruct (fontsLoaded (run doc n)); lia.
  - rewrite Hr, Hh. reflexivity.
  - exact Hh.
  - rewrite Hr, Hc. reflexivity.
Qed.

(** C2 (as the code has it). Without the platform promise the hook polls
    every 100 ms: poll [k] happens at time [100 * k].  While a poll finds the
    synchronous check present and a font missing, the signal stays false and
    one further poll is armed, with no bound on the number of polls.  The
    first poll that finds both fonts loaded sets the signal at once; the first
    poll that finds no check at all arms a single timer and the signal is
    forced 1000 ms later, whatever the fonts. *)
Theorem fallback_polls_until_loaded (doc : host) (K : nat) :
  promise_unavailable doc ->
  (forall k, k < K -> poll doc k = NotYet) ->
  (forall n, n < K ->
     fontsLoaded (run doc n) = false /\
     timers (run doc n) = [(100 * n + 100, CheckFonts)]) /\
  match poll doc K with
  | BothLoaded =>
      fontsLoaded (run doc K) = true /\ now (run doc K) = 100 * K
  | NotYet =>
      fontsLoaded (run doc K) = false /\
      timers (run doc K) = [(100 * K + 100, CheckFonts)]
  | NoCheck =>
      fontsLoaded (run doc K) = false /\
      timers (run doc K) = [(100 * K + 1000, AssumeLoaded)] /\
      fontsLoaded (run doc (S K)) = true /\
      now (run doc (S K)) = 100 * K + 1000
  end.
Proof.
  intros Hu Hk. split.
  - intros n Hn.
    rewrite (run_polling doc n Hu) by (intros; apply Hk; lia).
    rewrite checkFonts_armed, (Hk n Hn). split; reflexivity.
  - pose proof (run_polling doc K Hu Hk) as HK.
    destruct (poll doc K) eqn:HpK.
    + rewrite HK, checkFonts_armed, HpK. split; reflexivity.
    + rewrite HK, checkFonts_armed, HpK. split; reflexivity.
    + simpl run. rewrite HK, checkFonts_armed, HpK.
      repeat split. unfold tick. simpl. lia.
Qed.

Lemma fallback_polls_until_loaded_witness :
  (forall n, n < 3 ->
     fontsLoaded (run host_fonts_late n) = false /\
     timers (run host_fonts_late n) = [(100 * n + 100, CheckFonts)]) /\
  fontsLoaded (run host_fonts_late 3) = true /\ now (run host_fonts_late 3) = 300.
Proof.
  apply (fallback_polls_until_loaded host_fonts_late 3).
  - reflexivity.
  - intros k Hk. destruct k as [|[|[|k]]]; try reflexivity. lia.
Defined.

(** C2 (as stated) fails: on a host without the promise whose check never
    reports the two fonts, the signal never becomes true; every turn re-arms
    the next poll. *)
Lemma fallback_can_poll_forever :
  promise_unavailable host_never_loaded /\
  ~ (exists n, fontsLoaded (run host_never_loaded n) = true).
Proof.
  split; [reflexivity|].
  intros [n Hn].
  rewrite (run_polling host_never_loaded n) in Hn; [discriminate Hn|reflexivity|reflexivity].
Qed.

End FontsFacts.

Section TestimonialFacts.
Import TestimonialSection.

Lemma attach_refs_from (n a : nat) (r : refs) :
  vdRef r = map Some (seq 0 a) ->
  vdRef (fold_left (fun r index => ref_callback index (Some index) r) (seq a n) r)
  = map Some (seq 0 (a + n)) /\
  videos (fold_left (fun r index => ref_callback index (Some index) r) (seq a n) r)
  = videos r.
Proof.
  revert a r. induction n as [|n IH]; intros a r Hr.
  - simpl. rewrite Nat.add_0_r. auto.
  - simpl. destruct (IH (S a) (ref_callback a (Some a) r)) as [H1 H2].
    + unfold ref_callback, array_set. cbn [vdRef]. rewrite Hr.
      rewrite length_map, length_seq, Nat.ltb_irrefl, Nat.sub_diag.
      cbn [replicate app]. rewrite seq_S, map_app. reflexivity.
    + rewrite H1, H2. split; [f_equal; f_equal; lia | reflexivity].
Qed.

(** Rendering the cards leaves every card with its own video in its slot. *)
Lemma render_cards_mounted (cards : list card) : cards_mounted (render_cards cards).
Proof.
  unfold cards_mounted, render_cards, attach_refs.
  destruct (attach_refs_from (length cards) 0
              {| videos := map (fun c => {| video_src := src c; paused := true |}) cards;
                 vdRef := [] |} eq_refl) as [H1 H2].
  rewrite H1, H2. simpl. rewrite length_map. reflexivity.
Qed.

Lemma mounted_slot (r : refs) (i : nat) :
  cards_mounted r -> i < length (videos r) -> vdRef r !! i = Some (Some i).
Proof.
  intros Hm Hi. rewrite Hm, list_lookup_fmap, lookup_seq_lt by exact Hi. reflexivity.
Qed.

Lemma alter_same {A : Type} (f : A -> A) (l : list A) (i : nat) (x : A) :
  l !! i = Some x -> f x = x -> alter f i l = l.
Proof.
  intros Hx Hf. apply list_eq. intros j.
  destruct (decide (i = j)) as [<-|Hne].
  - rewrite list_lookup_alter_eq, Hx. simpl. congruence.
  - apply list_lookup_alter_ne. exact Hne.
Qed.

(** C9. On a page whose cards are mounted, hovering card [i] plays video [i]
    and leaving it pauses video [i]; every other video and every ref slot is
    as before; entering a card whose video already plays, or leaving one whose
    video is already paused, changes nothing and is no error. *)
Theorem hover_touches_only_own_video (r : refs) (i : nat) :
  cards_mounted r -> i < length (videos r) ->
  exists vd r1 r2,
    videos r !! i = Some vd /\
    onMouseEnter i r = inr r1 /\
    onMouseLeave i r = inr r2 /\
    videos r1 !! i = Some (play vd) /\
    videos r2 !! i = Some (pause vd) /\
    (forall j, j <> i -> videos r1 !! j = videos r !! j /\ videos r2 !! j = videos r !! j) /\
    vdRef r1 = vdRef r /\ vdRef r2 = vdRef r /\
    onMouseEnter i r1 = inr r1 /\
    onMouseLeave i r2 = inr r2 /\
    (paused vd = false -> r1 = r) /\
    (paused vd = true -> r2 = r).
Proof.
  intros Hm Hi.
  destruct (lookup_lt_is_Some_2 (videos r) i Hi) as [vd Hvd].
  pose proof (mounted_slot r i Hm Hi) as Hslot.
  exists vd, {| videos := alter play i (videos r); vdRef := vdRef r |},
         {| videos := alter pause i (videos r); vdRef := vdRef r |}.
  unfold onMouseEnter, onMouseLeave, handlePlay, handlePause. simpl.
  rewrite Hslot, !list_lookup_alter_eq, Hvd. simpl.
  repeat split; try reflexivity.
  - apply list_lookup_alter_ne. congruence.
  - apply list_lookup_alter_ne. congruence.
  - f_equal. f_equal. apply alter_same with (x := play vd).
    + rewrite list_lookup_alter_eq, Hvd. reflexivity.
    + reflexivity.
  - f_equal. f_equal. apply alter_same with (x := pause vd).
    + rewrite list_lookup_alter_eq, Hvd. reflexivity.
    + reflexivity.
  - intros Hp. destruct r as [vs refs0]. simpl in *. f_equal.
    apply alter_same with (x := vd); [exact Hvd|].
    destruct vd as [s p]. simpl in Hp. subst p. reflexivity.
  - intros Hp. destruct r as [vs refs0]. simpl in *. f_equal.
    apply alter_same with (x := vd); [exact Hvd|].
    destruct vd as [s p]. simpl in Hp. subst p. reflexivity.
Qed.

Lemma hover_touches_only_own_video_witness :
  exists vd r1 r2,
    videos (render_cards sample_cards) !! 2 = Some vd /\
    onMouseEnter 2 (render_cards sample_cards) = inr r1 /\
    onMouseLeave 2 (render_cards sample_cards) = inr r2 /\
    videos r1 !! 2 = Some (play vd) /\
    videos r2 !! 2 = Some (pause vd) /\
    (forall j, j <> 2 ->
       videos r1 !! j = videos (render_cards sample_cards) !! j /\
       videos r2 !! j = videos (render_cards sample_cards) !! j) /\
    vdRef r1 = vdRef (render_cards sample_cards) /\
    vdRef r2 = vdRef (render_cards sample_cards) /\
    onMouseEnter 2 r1 = inr r1 /\
    onMouseLeave 2 r2 = inr r2 /\
    (paused vd = false -> r1 = render_cards sample_cards) /\
    (paused vd = true -> r2 = render_cards sample_cards).
Proof.
  apply (hover_touches_only_own_video (render_cards sample_cards) 2).
  - reflexivity.
  - simpl. lia.
Defined.

(** C10. The handlers read the slot and call the method with no guard: on a
    slot that holds no element (a hole past the end, or a cleared ref) both
    end in the [TypeError] branch; conversely they return normally exactly
    when the slot holds an element. *)
Theorem handlers_throw_on_unset_ref (r : refs) (i : nat) :
  (vdRef r !! i = None \/ vdRef r !! i = Some None) ->
  handlePlay i r = inl TypeError /\
  handlePause i r = inl TypeError /\
  (forall r' i', (exists r'', handlePlay i' r' = inr r'') <-> (exists el, vdRef r' !! i' = Some (Some el))) /\
  (forall r' i', (exists r'', handlePause i' r' = inr r'') <-> (exists el, vdRef r' !! i' = Some (Some el))).
Proof.
  intros H. unfold handlePlay, handlePause.
  repeat split.
  - destruct H as [-> | ->]; reflexivity.
  - destruct H as [-> | ->]; reflexivity.
  - intros [r'' Hr]. destruct (vdRef r' !! i') as [[el|]|]; try discriminate. eauto.
  - intros [el ->]. eauto.
  - intros [r'' Hr]. destruct (vdRef r' !! i') as [[el|]|]; try discriminate. eauto.
  - intros [el ->]. eauto.
Qed.

Lemma handlers_throw_on_unset_ref_witness :
  handlePlay 0 {| videos := []; vdRef := [] |} = inl TypeError /\
  handlePause 0 {| videos := []; vdRef := [] |} = inl TypeError /\
  (forall r' i', (exists r'', handlePlay i' r' = inr r'') <-> (exists el, vdRef r' !! i' = Some (Some el))) /\
  (forall r' i', (exists r'', handlePause i' r' = inr r'') <-> (exists el, vdRef r' !! i' = Some (Some el))).
Proof.
  apply (handlers_throw_on_unset_ref {| videos := []; vdRef := [] |} 0).
  left. reflexivity.
Defined.

End TestimonialFacts.

Section ReadinessGateFacts.
Import Gsap React Page.

Lemma setup_waits (c : component) (v : view) (w : world) :
  In c segmenting -> fontsLoaded v = false -> setup c v w = (tt, w).
Proof.
  intros Hc Hv. simpl in Hc.
  destruct Hc as [<- | [<- | [<- | [<- | []]]]]; simpl;
    [unfold HeroSection.setup | unfold MessageSection.setup
    | unfold FlavorTitle.setup | unfold NutritionSection.setup];
    rewrite Hv; reflexivity.
Qed.

Lemma after_hook c doc width slider d n :
  hook (after c doc width slider d n) = Fonts.run doc n.
Proof. induction n as [|n IH]; simpl; [reflexivity | rewrite IH; reflexivity]. Qed.

Lemma view_of_waiting width slider (h : Fonts.hook) :
  Fonts.fontsLoaded h = false ->
  view_of width slider h = view_of width slider Fonts.useState_false.
Proof. intros Hh. unfold view_of. rewrite Hh. reflexivity. Qed.

Lemma run_waiting_before doc n :
  Fonts.fontsLoaded (Fonts.run doc (S n)) = false ->
  Fonts.fontsLoaded (Fonts.run doc n) = false.
Proof.
  intros Hn. destruct (Fonts.fontsLoaded (Fonts.run doc n)) eqn:Hk; [|reflexivity].
  simpl in Hn. rewrite (tick_keeps doc _ Hk) in Hn. discriminate.
Qed.

Lemma render_same (c : component) (v : view) (st : instance * world) :
  memo (fst st) = effective_dependencies c v -> render c v st = st.
Proof.
  intros Hm. unfold render. rewrite bool_decide_eq_true_2 by (symmetry; exact Hm).
  reflexivity.
Qed.

(** While the signal is false the component has built nothing: its engine
    state is the one of the first render. *)
Lemma gsap_waiting c doc width slider d n :
  In c segmenting ->
  Fonts.fontsLoaded (Fonts.run doc n) = false ->
  gsap (after c doc width slider d n) =
  ({| context := [];
      memo := effective_dependencies c (view_of width slider Fonts.useState_false) |},
   blank d).
Proof.
  intros Hc. induction n as [|n IH]; intros Hn.
  - simpl. unfold first_render. simpl gsap.
    change (Fonts.run doc 0) with (Fonts.mount doc) in Hn.
    rewrite (view_of_waiting width slider _ Hn).
    assert (Hm : mount c (view_of width slider Fonts.useState_false) (blank d) =
                 ({| context := [];
                     memo := effective_dependencies c (view_of width slider Fonts.useState_false) |},
                  blank d)).
    { unfold mount, run_callback, exec. simpl fst. simpl snd.
      rewrite (setup_waits c (view_of width slider Fonts.useState_false) (blank d) Hc eq_refl).
      reflexivity. }
    rewrite Hm. apply render_same. reflexivity.
  - simpl. unfold turn. simpl gsap.
    rewrite after_hook.
    change (Fonts.tick doc (Fonts.run doc n)) with (Fonts.run doc (S n)).
    rewrite (view_of_waiting width slider _ Hn).
    rewrite (IH (run_waiting_before doc n Hn)). apply render_same. reflexivity.
Qed.

(** C3. In the hero, message, flavor title and nutrition sections, a setup
    that runs while the readiness signal is false returns at once, leaving
    the page as it was: no text is split and no animation or timeline is
    created; and on every host, for as long as the signal of the mounted
    component is false, its page is still the one it was mounted on. *)
Theorem no_segmentation_before_ready (c : component) (v : view) (w : world)
    (doc : Fonts.host) (width slider : Z) (d : Dom.node) (n : nat) :
  In c segmenting ->
  fontsLoaded v = false ->
  Fonts.fontsLoaded (Fonts.run doc n) = false ->
  setup c v w = (tt, w) /\
  snd (gsap (after c doc width slider d n)) = blank d.
Proof.
  intros Hc Hv Hn. split.
  - apply setup_waits; assumption.
  - rewrite (gsap_waiting c doc width slider d n Hc Hn). reflexivity.
Qed.

Lemma no_segmentation_before_ready_witness :
  setup HeroSection.HeroSection (desktop false)
    (blank (HeroSection.markup (desktop false)))
  = (tt, blank (HeroSection.markup (desktop false))) /\
  snd (gsap (after HeroSection.HeroSection Fonts.host_never_loaded 1200 4000
              (HeroSection.markup (desktop false)) 7))
  = blank (HeroSection.markup (desktop false)).
Proof.
  apply (no_segmentation_before_ready HeroSection.HeroSection (desktop false)
           (blank (HeroSection.markup (desktop false)))
           Fonts.host_never_loaded 1200 4000 (HeroSection.markup (desktop false)) 7).
  - simpl. left. reflexivity.
  - reflexivity.
  - reflexivity.
Defined.

End ReadinessGateFacts.

Section RebuildFacts.
Import Gsap React Page.

Lemma sim_ret {A : Type} (R : A -> A -> Prop) pre (x x0 : A) :
  R x x0 -> sim R pre (mret x) (mret x0).
Proof. intros HR w w0 Hw. split; assumption. Qed.

Lemma sim_bind {A B : Type} (R : A -> A -> Prop) (S : B -> B -> Prop) pre
    (c c0 : M A) (k k0 : A -> M B) :
  sim R pre c c0 ->
  (forall x x0, R x x0 -> sim S pre (k x) (k0 x0)) ->
  sim S pre (c ≫= k) (c0 ≫= k0).
Proof.
  intros Hc Hk w w0 Hw. unfold mbind, M_bind.
  destruct (Hc w w0 Hw) as [HR Hw'].
  destruct (c w) as [x w1], (c0 w0) as [x0 w1']. simpl in *.
  apply Hk; assumption.
Qed.

Lemma sim_timeline pre (v : vars) :
  sim (shifted pre) pre (gsap_timeline v) (gsap_timeline v).
Proof.
  intros w w0 (Ha & Hd & Hs & Ht). unfold gsap_timeline, shifted, ahead. simpl.
  rewrite Ha, length_app, Hd, Hs, Ht, app_assoc. auto.
Qed.

Lemma sim_tl_add pre dr (h h0 : nat) t v pos :
  shifted pre h h0 -> sim eq pre (tl_add dr h t v pos) (tl_add dr h0 t v pos).
Proof.
  intros -> w w0 (Ha & Hd & Hs & Ht). unfold tl_add, ahead. simpl.
  rewrite Ha, Hd, Hs, Ht, alter_app_r. auto.
Qed.

Lemma sim_tween pre dr t v : sim eq pre (gsap_tween dr t v) (gsap_tween dr t v).
Proof.
  intros w w0 (Ha & Hd & Hs & Ht). unfold gsap_tween, ahead. simpl.
  rewrite Ha, Hd, Hs, Ht, app_assoc. auto.
Qed.

Lemma sim_set pre t v : sim eq pre (gsap_set t v) (gsap_set t v).
Proof.
  intros w w0 (Ha & Hd & Hs & Ht). unfold gsap_set, ahead. simpl.
  rewrite Ha, Hd, Hs, Ht. auto.
Qed.

Lemma sim_split pre sel ty : sim eq pre (SplitText_create sel ty) (SplitText_create sel ty).
Proof.
  intros w w0 (Ha & Hd & Hs & Ht). unfold SplitText_create, ahead. simpl.
  rewrite Ha, Hd, Hs, Ht. auto.
Qed.

Lemma sim_remove pre sel name :
  sim eq pre (removeAttribute_all sel name) (removeAttribute_all sel name).
Proof.
  intros w w0 (Ha & Hd & Hs & Ht). unfold removeAttribute_all, ahead. simpl.
  rewrite Ha, Hd, Hs, Ht. auto.
Qed.

(** Setup code is straight-line: the rules above, one per statement. *)
Ltac sim_step :=
  match goal with
  | |- sim _ _ (mret _) (mret _) => apply sim_ret; reflexivity
  | |- sim _ _ (tl_to _ _ _ _) _ => apply sim_tl_add; assumption
  | |- sim _ _ (tl_from _ _ _ _) _ => apply sim_tl_add; assumption
  | |- sim _ _ (gsap_to _ _) _ => apply sim_tween
  | |- sim _ _ (gsap_from _ _) _ => apply sim_tween
  | |- sim _ _ (gsap_set _ _) _ => apply sim_set
  | |- sim _ _ (gsap_timeline _) _ => apply sim_timeline
  | |- sim _ _ (SplitText_create _ _) _ => apply sim_split
  | |- sim _ _ (removeAttribute_all _ _) _ => apply sim_remove
  | |- sim _ _ (_ ≫= _) _ =>
      eapply sim_bind; [sim_step | intros ? ? ?; subst; sim_step]
  end.

Lemma sim_appends (c : component) :
  (forall v pre, sim eq pre (setup c v) (setup c v)) -> appends c.
Proof.
  intros Hc v w.
  destruct (Hc v (animations w) w (forget w)) as [_ (Ha & _)].
  - unfold ahead, forget. simpl. rewrite app_nil_r. auto.
  - exact Ha.
Qed.

Lemma HeroSection_appends : appends HeroSection.HeroSection.
Proof.
  apply sim_appends. intros v pre. cbn [setup HeroSection.HeroSection].
  unfold HeroSection.setup. destruct (fontsLoaded v); cbn [negb]; sim_step.
Qed.

Lemma FlavorTitle_appends : appends FlavorTitle.FlavorTitle.
Proof.
  apply sim_appends. intros v pre. cbn [setup FlavorTitle.FlavorTitle].
  unfold FlavorTitle.setup. destruct (fontsLoaded v); cbn [negb]; sim_step.
Qed.

Lemma MessageSection_appends : appends MessageSection.MessageSection.
Proof.
  apply sim_appends. intros v pre. cbn [setup MessageSection.MessageSection].
  unfold MessageSection.setup. destruct (fontsLoaded v); cbn [negb]; sim_step.
Qed.

Lemma NutritionSection_appends : appends NutritionSection.NutritionSection.
Proof.
  apply sim_appends. intros v pre. cbn [setup NutritionSection.NutritionSection].
  unfold NutritionSection.setup. destruct (fontsLoaded v); cbn [negb]; sim_step.
Qed.

Lemma with_dependencies_append (c : component) : In c with_dependencies -> appends c.
Proof.
  simpl. intros [<- | [<- | [<- | [<- | []]]]];
    auto using HeroSection_appends, FlavorTitle_appends, MessageSection_appends,
      NutritionSection_appends.
Qed.

Lemma with_dependencies_defer (c : component) (v : view) :
  In c with_dependencies -> deferCleanup c v = true.
Proof. simpl. intros [<- | [<- | [<- | [<- | []]]]]; reflexivity. Qed.

(** C4 (as the code has it). In a section that gives [useGSAP] a dependency
    array (hero, flavor title and message: the readiness signal; nutrition:
    the readiness signal and the 768px viewport class), a render in which a
    dependency changed runs the setup again, and the setup builds from
    scratch: the engine then holds every animation it held before, unchanged
    and not torn down, followed by exactly what the setup builds on an empty
    engine; the context records the new ones after the old ones. *)
Theorem dependency_change_builds_afresh (c : component) (v : view) (st : instance * world) :
  In c with_dependencies ->
  effective_dependencies c v <> memo (fst st) ->
  animations (snd (render c v st)) =
    animations (snd st) ++ animations (exec (setup c v) (forget (snd st))) /\
  context (fst (render c v st)) =
    context (fst st) ++
    seq (length (animations (snd st)))
        (length (animations (exec (setup c v) (forget (snd st))))) /\
  memo (fst (render c v st)) = effective_dependencies c v.
Proof.
  intros Hc Hd. unfold render.
  rewrite bool_decide_eq_false_2 by exact Hd.
  rewrite (with_dependencies_defer c v Hc).
  unfold run_callback. simpl fst. simpl snd.
  rewrite (with_dependencies_append c Hc v (snd st)).
  split; [reflexivity|]. split; [|reflexivity].
  cbn [context]. rewrite length_app. f_equal. f_equal. lia.
Qed.

Lemma dependency_change_builds_afresh_witness :
  animations (snd (render NutritionSection.NutritionSection (mobile true) nutrition_loaded)) =
    animations (snd nutrition_loaded) ++
    animations (exec (setup NutritionSection.NutritionSection (mobile true))
                  (forget (snd nutrition_loaded))) /\
  context (fst (render NutritionSection.NutritionSection (mobile true) nutrition_loaded)) =
    context (fst nutrition_loaded) ++
    seq (length (animations (snd nutrition_loaded)))
        (length (animations (exec (setup NutritionSection.NutritionSection (mobile true))
                               (forget (snd nutrition_loaded))))) /\
  memo (fst (render NutritionSection.NutritionSection (mobile true) nutrition_loaded)) =
    effective_dependencies NutritionSection.NutritionSection (mobile true).
Proof.
  apply (dependency_change_builds_afresh NutritionSection.NutritionSection (mobile true)
           nutrition_loaded).
  - simpl. auto.
  - vm_compute. discriminate.
Defined.

(** C4 (as stated) fails: the nutrition section declares the viewport class
    as a dependency; when the window is narrowed, the two timelines built
    before are still in the engine, untouched and live, next to the two new
    ones. *)
Lemma nutrition_resize_keeps_old_timelines :
  effective_dependencies NutritionSection.NutritionSection (mobile true)
    <> memo (fst nutrition_loaded) /\
  map is_timeline (animations (snd nutrition_loaded)) = [true; true] /\
  take 2 (animations (snd nutrition_resized)) = animations (snd nutrition_loaded) /\
  map live (animations (snd nutrition_resized)) = [true; true; true; true].
Proof.
  split; [vm_compute; discriminate|].
  split; [vm_compute; reflexivity|].
  split; vm_compute; reflexivity.
Qed.

(** A [useGSAP] call without a dependency array never runs its setup again. *)
Lemma render_without_dependencies (c : component) (v : view) (st : instance * world) :
  dependencies c = None -> memo (fst st) = [] -> render c v st = st.
Proof.
  intros Hc Hm. apply render_same. unfold effective_dependencies. rewrite Hc. exact Hm.
Qed.

Lemma session_without_dependencies (c : component) (v0 : view) (vs : list view) (w : world) :
  dependencies c = None -> session c v0 vs w = mount c v0 w.
Proof.
  intros Hc. unfold session.
  assert (Hm : memo (fst (mount c v0 w)) = []).
  { unfold mount, run_callback, effective_dependencies. rewrite Hc. reflexivity. }
  revert Hm. generalize (mount c v0 w) as st.
  induction vs as [|v vs IH]; intros st Hm; simpl; [reflexivity|].
  rewrite (render_without_dependencies c v st Hc Hm). apply IH, Hm.
Qed.

(** C8. At every viewport width up to the tablet breakpoint of 1024px the
    slider's setup creates the title timeline only: the engine holds no
    pinned animation after it, and none appears later in the life of the
    component, whatever the later renders. *)
Theorem no_pin_timeline_up_to_tablet (v : view) (vs : list view) (d : Dom.node) :
  (innerWidth v <= 1024)%Z ->
  length (animations (exec (FlavorSlider.setup v) (blank d))) = 1 /\
  existsb is_pinned (animations (exec (FlavorSlider.setup v) (blank d))) = false /\
  existsb is_pinned
    (animations (snd (session FlavorSlider.FlavorSlider v vs (blank d)))) = false.
Proof.
  intros Hw.
  assert (Hs : existsb is_pinned (animations (exec (FlavorSlider.setup v) (blank d))) = false
               /\ length (animations (exec (FlavorSlider.setup v) (blank d))) = 1).
  { unfold FlavorSlider.setup, FlavorSlider.isTablet, max_width.
    rewrite (proj2 (Z.leb_le _ _) Hw). split; reflexivity. }
  destruct Hs as [Hp Hl]. repeat split; [exact Hl | exact Hp |].
  rewrite session_without_dependencies by reflexivity. exact Hp.
Qed.

Lemma no_pin_timeline_up_to_tablet_witness :
  length (animations (exec (FlavorSlider.setup (mobile true))
                        (blank (FlavorSection.markup [])))) = 1 /\
  existsb is_pinned (animations (exec (FlavorSlider.setup (mobile true))
                                   (blank (FlavorSection.markup [])))) = false /\
  existsb is_pinned
    (animations (snd (session FlavorSlider.FlavorSlider (mobile true)
                        [desktop true; mobile true] (blank (FlavorSection.markup []))))) = false.
Proof.
  apply (no_pin_timeline_up_to_tablet (mobile true) [desktop true; mobile true]
           (FlavorSection.markup [])).
  simpl. lia.
Defined.

(** Above the breakpoint the pinned timeline is the first thing built. *)
Lemma pin_timeline_on_desktop (v : view) (d : Dom.node) :
  (1024 < innerWidth v)%Z ->
  map is_pinned (animations (exec (FlavorSlider.setup v) (blank d))) = [true; false].
Proof.
  intros Hw. unfold FlavorSlider.setup, FlavorSlider.isTablet, max_width.
  rewrite (proj2 (Z.leb_gt _ _) Hw). reflexivity.
Qed.

End RebuildFacts.

Section TimelineFacts.
Import Dom Gsap React Page.
#[local] Open Scope Z_scope.

(** What the hero setup builds once the fonts are in, on any document. *)
Lemma hero_timelines (d : node) (width slider : Z) :
  animations (exec (HeroSection.setup
                      {| fontsLoaded := true; innerWidth := width; scrollWidth := slider |})
                (blank d)) =
  [ {| live := true;
       what := Timeline [delay 1000]
         [ {| dir := To;
              targets := map Elem (querySelectorAll [[Class "hero-content"]] (hero_split d));
              step_vars := [prop "opacity" (Num 1); prop "y" (Num 0); ease "power1.inOut"];
              startTime := 0; totalDuration := 500 |};
           {| dir := To;
              targets := map Elem (querySelectorAll [[Class "hero-text-scroll"]] (hero_split d));
              step_vars := [duration 1000;
                            prop "clipPath" (Str "polygon(0% 0%, 100% 0%, 100% 100%, 0% 100%)");
                            ease "circ.out"];
              startTime := 0; totalDuration := 1000 |};
           {| dir := From;
              targets := hero_chars d;
              step_vars := [prop "yPercent" (Num 200); stagger 20; ease "power2.out"];
              startTime := 500;
              totalDuration := 500 + 20 * Z.of_nat (Nat.pred (length (hero_chars d))) |} ] |};
    {| live := true;
       what := Timeline
         [scrollTrigger [trigger [[Class "hero-container"]]; start (Place "1% top");
                         end_ (Place "bottom top"); scrub ScrubTrue]]
         [ {| dir := To;
              targets := map Elem (querySelectorAll [[Class "hero-container"]] (hero_split d));
              step_vars := [prop "rotate" (Num 7); prop "scale" (Ratio 9 10);
                            prop "yPercent" (Num 30); ease "power1.inOut"];
              startTime := 0; totalDuration := 500 |} ] |} ].
Proof. reflexivity. Qed.

(** What the benefit setup builds, on any document. *)
Lemma benefit_timeline (d : node) (v : view) :
  animations (exec (BenefitSection.setup v) (blank d)) =
  [ {| live := true;
       what := Timeline
         [delay 1000;
          scrollTrigger [trigger [[Class "benefit-section"]]; start (Place "top 60%");
                         end_ (Place "top top"); scrub (ScrubSmooth 1500)]]
         [ {| dir := To;
              targets := map Elem (querySelectorAll [[Class "benefit-section"]; [Class "first-title"]] d);
              step_vars := BenefitSection.reveal; startTime := 0; totalDuration := 1000 |};
           {| dir := To;
              targets := map Elem (querySelectorAll [[Class "benefit-section"]; [Class "second-title"]] d);
              step_vars := BenefitSection.reveal; startTime := 1000; totalDuration := 1000 |};
           {| dir := To;
              targets := map Elem (querySelectorAll [[Class "benefit-section"]; [Class "third-title"]] d);
              step_vars := BenefitSection.reveal; startTime := 2000; totalDuration := 1000 |};
           {| dir := To;
              targets := map Elem (querySelectorAll [[Class "benefit-section"]; [Class "fourth-title"]] d);
              step_vars := BenefitSection.reveal; startTime := 3000; totalDuration := 1000 |} ] |} ].
Proof. reflexivity. Qed.

(** C5 (as the code has it). The sections add their steps unchecked: on every
    document, the benefit timeline holds its four steps and the hero timeline
    its three, in the order written, each acting on whatever its selector
    matches there, be it nothing; the number of steps, their order and their
    start offsets do not depend on what is matched, so a step without targets
    is kept like any other and the steps after it are still added. *)
Theorem steps_are_added_unchecked (d : node) (v : view) (width slider : Z) :
  map (fun s => (dir s, targets s, startTime s))
      (steps_of (exec (BenefitSection.setup v) (blank d)) 0) =
  [ (To, map Elem (querySelectorAll [[Class "benefit-section"]; [Class "first-title"]] d), 0);
    (To, map Elem (querySelectorAll [[Class "benefit-section"]; [Class "second-title"]] d), 1000);
    (To, map Elem (querySelectorAll [[Class "benefit-section"]; [Class "third-title"]] d), 2000);
    (To, map Elem (querySelectorAll [[Class "benefit-section"]; [Class "fourth-title"]] d), 3000) ] /\
  map (fun s => (dir s, targets s, startTime s))
      (steps_of (exec (HeroSection.setup
                         {| fontsLoaded := true; innerWidth := width; scrollWidth := slider |})
                   (blank d)) 0) =
  [ (To, map Elem (querySelectorAll [[Class "hero-content"]] (hero_split d)), 0);
    (To, map Elem (querySelectorAll [[Class "hero-text-scroll"]] (hero_split d)), 0);
    (From, hero_chars d, 500) ] /\
  map live (animations (exec (BenefitSection.setup v) (blank d))) = [true] /\
  map live (animations (exec (HeroSection.setup
                               {| fontsLoaded := true; innerWidth := width; scrollWidth := slider |})
                         (blank d))) = [true; true].
Proof.
  unfold steps_of. rewrite benefit_timeline, hero_timelines. repeat split.
Qed.

(** C5 (as stated) fails: with the class of the first title misspelt, the
    first step selects nothing, yet the timeline is built with all four
    steps, the empty one included, and is live. *)
Lemma zero_target_step_is_accepted :
  querySelectorAll [[Class "benefit-section"]; [Class "first-title"]]
    BenefitSection.markup_typo = [] /\
  map (fun s => length (targets s))
      (steps_of (exec (BenefitSection.setup (desktop true))
                   (blank BenefitSection.markup_typo)) 0) = [0; 1; 1; 1]%nat /\
  map startTime
      (steps_of (exec (BenefitSection.setup (desktop true))
                   (blank BenefitSection.markup_typo)) 0) = [0; 1000; 2000; 3000] /\
  map live (animations (exec (BenefitSection.setup (desktop true))
                          (blank BenefitSection.markup_typo))) = [true].
Proof. repeat split; vm_compute; reflexivity. Qed.

(** C6, on the code. After their setups, the hero title and the two halves
    of the flavor title still carry the [aria-label] that the split gave
    them: neither section removes it.  The message and nutrition sections,
    which do remove it, end with no labelled element. *)
Theorem titles_keep_aria_label :
  labelled (document (exec (HeroSection.setup (desktop true))
                        (blank (HeroSection.markup (desktop true))))) = [[0; 1; 0; 0]]%nat /\
  Dom.lookup [0; 1; 0; 0]%nat
    (document (exec (HeroSection.setup (desktop true))
                 (blank (HeroSection.markup (desktop true))))) =
    Some (El "h1" ["hero-title"; "text-center"] [("aria-label", "Freaking Delicious")]
             [Text "Freaking Delicious"]) /\
  document (exec (HeroSection.setup (desktop true))
              (blank (HeroSection.markup (desktop true)))) =
    update (setAttribute "aria-label" "Freaking Delicious") [0; 1; 0; 0]%nat
      (HeroSection.markup (desktop true)) /\
  labelled (document (exec (FlavorTitle.setup (desktop true))
                        (blank (FlavorSection.markup sample_flavors)))) =
    [[0; 0; 0; 0; 0]; [0; 0; 0; 2; 0]]%nat /\
  labelled (document (exec (MessageSection.setup (desktop true))
                        (blank MessageSection.markup))) = [] /\
  labelled (document (exec (NutritionSection.setup (desktop true))
                        (blank (NutritionSection.markup sample_nutrients)))) = [] /\
  length (splits (exec (MessageSection.setup (desktop true))
                    (blank MessageSection.markup))) = 3%nat /\
  length (splits (exec (NutritionSection.setup (desktop true))
                    (blank (NutritionSection.markup sample_nutrients)))) = 2%nat.
Proof. repeat split; vm_compute; reflexivity. Qed.

Lemma hero_page_waiting (t : nat) (width slider : Z) (d : node) :
  hero_page t width slider d 0 =
  {| hook := {| Fonts.now := 0; Fonts.fontsLoaded := false;
                Fonts.timers := [(t, Fonts.ReadyThen)]; Fonts.setter_calls := 0 |};
     gsap := ({| context := []; memo := [false] |}, blank d) |}.
Proof.
  reflexivity.
Qed.

Lemma hero_page_ready (t : nat) (width slider : Z) (d : node) (n : nat) :
  hero_page t width slider d (S n) =
  {| hook := {| Fonts.now := t; Fonts.fontsLoaded := true;
                Fonts.timers := []; Fonts.setter_calls := 1 |};
     gsap := run_callback HeroSection.HeroSection
               {| fontsLoaded := true; innerWidth := width; scrollWidth := slider |}
               ({| context := []; memo := [false] |}, blank d) |}.
Proof.
  induction n as [|n IH].
  - unfold hero_page. change (after ?c ?h ?w ?s ?d 1) with (turn c h w s (after c h w s d 0)).
    fold (hero_page t width slider d 0). rewrite hero_page_waiting. reflexivity.
  - unfold hero_page in *.
    change (after ?c ?h ?w ?s ?d (S (S n))) with (turn c h w s (after c h w s d (S n))).
    rewrite IH. reflexivity.
Qed.

(** C7 (as the code has it). On a host whose font promise settles [t] ms
    after mount, at any width and on any document, the hero has built
    nothing before the promise settles; in the turn in which it settles, at
    time [t], it builds its timeline of three steps: the fade-in at 0, the
    clip reveal marked [-=0.5] at the end of the fade-in less 0.5 s, that is
    at 0, and the character stagger marked [-=0.5] at the end of the timeline
    so far less 0.5 s, that is at 0.5 s.  An overlap is taken from the end of
    what precedes, not from its start. *)
Theorem hero_timeline_after_readiness (t : nat) (width slider : Z) (d : node) (n : nat) :
  Fonts.fontsLoaded (hook (hero_page t width slider d 0)) = false /\
  snd (gsap (hero_page t width slider d 0)) = blank d /\
  Fonts.fontsLoaded (hook (hero_page t width slider d (S n))) = true /\
  Fonts.now (hook (hero_page t width slider d (S n))) = t /\
  exists s1 s2 s3,
    steps_of (snd (gsap (hero_page t width slider d (S n)))) 0 = [s1; s2; s3] /\
    map dir [s1; s2; s3] = [To; To; From] /\
    map startTime [s1; s2; s3] = [0; 0; 500] /\
    totalDuration s1 = 500 /\ totalDuration s2 = 1000 /\
    startTime s2 = timeline_end [s1] - 500 /\
    startTime s3 = timeline_end [s1; s2] - 500.
Proof.
  rewrite hero_page_waiting, hero_page_ready. cbn [hook gsap snd].
  repeat split.
  unfold run_callback, steps_of. cbn [snd fst]. rewrite hero_timelines.
  do 3 eexists. split; [reflexivity|]. repeat split.
Qed.

(** C7 (as stated) fails: on a desktop page whose fonts are in 50 ms after
    mount, the character stagger starts at 0.5 s, while the step before it
    starts at 0, so that "the start of the previous step less 0.5 s" would be
    -0.5 s. *)
Lemma hero_overlap_is_from_the_end :
  exists s2 s3,
    steps_of (snd (gsap (hero_page 50 1200 4000 (HeroSection.markup (desktop true)) 1))) 0
      !! 1%nat = Some s2 /\
    steps_of (snd (gsap (hero_page 50 1200 4000 (HeroSection.markup (desktop true)) 1))) 0
      !! 2%nat = Some s3 /\
    startTime s2 = 0 /\ startTime s3 = 500 /\ startTime s2 - 500 = -500 /\
    startTime s3 <> startTime s2 - 500.
Proof.
  do 2 eexists. split; [vm_compute; reflexivity|]. split; [vm_compute; reflexivity|].
  repeat split. discriminate.
Qed.

End TimelineFacts.

(* ===================================================================== *)
(** * Part III. Further properties of the code                             *)
(* ===================================================================== *)

Section FontsMore.
Import Fonts.

(** X1. When the platform offers the promise, the hook only waits for it: the
    synchronous check is never consulted and no timer is armed.  If the
    promise settles [t] ms after mount, the signal is false after the effect
    and true from the next turn on, at time [t], with nothing pending; if it
    never settles, the hook stays as [useState(false)] left it, for ever. *)
Theorem promise_path_waits_for_the_promise (doc : host) (f : FontFaceSet) (p : promise)
    (n : nat) :
  fonts (doc 0) = Some f -> ready f = Some p ->
  match p with
  | Resolves t =>
      run doc 0 = {| now := 0; fontsLoaded := false; timers := [(t, ReadyThen)];
                     setter_calls := 0 |} /\
      run doc (S n) = {| now := t; fontsLoaded := true; timers := []; setter_calls := 1 |}
  | NeverSettles => run doc n = useState_false
  end.
Proof.
  intros Hf Hr.
  assert (Hm : mount doc = then_ p ReadyThen useState_false).
  { unfold mount, effect. simpl. rewrite Hf, Hr. reflexivity. }
  destruct p as [t|].
  - assert (H0 : run doc 0 = {| now := 0; fontsLoaded := false;
                                timers := [(t, ReadyThen)]; setter_calls := 0 |}).
    { simpl. rewrite Hm. reflexivity. }
    split; [exact H0|].
    assert (H1 : run doc 1 = {| now := t; fontsLoaded := true; timers := [];
                                setter_calls := 1 |}).
    { change (run doc 1) with (tick doc (run doc 0)). rewrite H0. reflexivity. }
    change (S n) with (1 + n). rewrite run_quiet; [exact H1 | rewrite H1; reflexivity].
  - assert (H0 : run doc 0 = useState_false) by (simpl; rewrite Hm; reflexivity).
    change n with (0 + n). rewrite run_quiet; [exact H0 | rewrite H0; reflexivity].
Qed.

Lemma promise_path_waits_for_the_promise_witness :
  run (host_ready_at 50) 0 = {| now := 0; fontsLoaded := false;
                                timers := [(50, ReadyThen)]; setter_calls := 0 |} /\
  run (host_ready_at 50) 4 = {| now := 50; fontsLoaded := true; timers := [];
                                setter_calls := 1 |}.
Proof.
  apply (promise_path_waits_for_the_promise (host_ready_at 50)
           {| ready := Some (Resolves 50); check := None |} (Resolves 50) 3);
    reflexivity.
Defined.

Lemma checkFonts_now doc (h : hook) : now (checkFonts doc h) = now h.
Proof.
  unfold checkFonts. destruct (fonts (doc (now h))) as [f|]; [|reflexivity].
  destruct (check f) as [chk|]; [|reflexivity].
  destruct (chk antonio_font && chk proxima_font); reflexivity.
Qed.

Lemma tick_now doc (h : hook) : now h <= now (tick doc h).
Proof.
  unfold tick. destruct (earliest (timers h)) as [[[due t] rest]|]; [|lia].
  destruct t; simpl; rewrite ?checkFonts_now; simpl; lia.
Qed.

(** X2. On every host the hook keeps at most one callback pending; once the
    signal is true nothing is pending, so the hook is at rest: no poll and
    no timer runs after readiness, and further turns change nothing.  The
    clock of the instance never goes back. *)
Theorem hook_rests_once_ready (doc : host) (n m : nat) :
  fontsLoaded (run doc n) = true ->
  length (timers (run doc m)) <= 1 /\
  now (run doc m) <= now (run doc (S m)) /\
  timers (run doc n) = [] /\
  run doc (n + m) = run doc n.
Proof.
  intros Hn.
  destruct (run_settled doc m) as (Hlen & _ & _).
  destruct (run_settled doc n) as (_ & Hnil & _).
  repeat split.
  - exact Hlen.
  - apply tick_now.
  - apply Hnil, Hn.
  - apply run_quiet, Hnil, Hn.
Qed.

Lemma hook_rests_once_ready_witness :
  length (timers (run host_fonts_late 2)) <= 1 /\
  now (run host_fonts_late 2) <= now (run host_fonts_late 3) /\
  timers (run host_fonts_late 3) = [] /\
  run host_fonts_late (3 + 2) = run host_fonts_late 3.
Proof.
  apply (hook_rests_once_ready host_fonts_late 3 2). reflexivity.
Defined.

End FontsMore.

Section TestimonialMore.
Import TestimonialSection.

(** X3. The ref callback stores by index as a script array does: after
    [vdRef.current[index] = el] slot [index] holds [el], every other slot
    that existed is as before, an index past the end extends the array with
    empty slots in between, and the video elements themselves are not
    touched. *)
Theorem ref_callback_stores_by_index (index : nat) (el : option nat) (r : refs) :
  vdRef (ref_callback index el r) !! index = Some el /\
  (forall j, j <> index -> j < length (vdRef r) ->
     vdRef (ref_callback index el r) !! j = vdRef r !! j) /\
  (forall j, length (vdRef r) <= j -> j < index ->
     vdRef (ref_callback index el r) !! j = Some None) /\
  length (vdRef (ref_callback index el r)) = Nat.max (length (vdRef r)) (S index) /\
  videos (ref_callback index el r) = videos r.
Proof.
  unfold ref_callback, array_set. simpl.
  destruct (Nat.ltb_spec index (length (vdRef r))) as [Hlt | Hge].
  - split; [apply list_lookup_insert_eq; exact Hlt|].
    split; [intros j Hj _; apply list_lookup_insert_ne; congruence|].
    split; [intros j H1 H2; lia|].
    split; [rewrite length_insert; lia | reflexivity].
  - split.
    { rewrite lookup_app_r by exact Hge.
      rewrite lookup_app_r by (rewrite length_replicate; lia).
      rewrite length_replicate, Nat.sub_diag. reflexivity. }
    split; [intros j _ Hj; apply lookup_app_l; exact Hj|].
    split.
    { intros j H1 H2. rewrite lookup_app_r by exact H1.
      rewrite lookup_app_l by (rewrite length_replicate; lia).
      apply lookup_replicate_2. lia. }
    split; [rewrite !length_app, length_replicate; simpl; lia | reflexivity].
Qed.

(** X4. Rendering any list of cards gives every card its own video, not yet
    playing, and fills the ref array in order, so that after the render every
    card can be hovered: both handlers return normally at every card index
    and throw at every index past the last card. *)
Theorem render_cards_fills_refs (cards : list card) (i : nat) :
  cards_mounted (render_cards cards) /\
  videos (render_cards cards) = map (fun c => {| video_src := src c; paused := true |}) cards /\
  (i < length cards ->
     exists r1 r2, handlePlay i (render_cards cards) = inr r1 /\
                   handlePause i (render_cards cards) = inr r2) /\
  (length cards <= i ->
     handlePlay i (render_cards cards) = inl TypeError /\
     handlePause i (render_cards cards) = inl TypeError).
Proof.
  pose proof (render_cards_mounted cards) as Hm.
  assert (Hv : videos (render_cards cards)
               = map (fun c => {| video_src := src c; paused := true |}) cards).
  { unfold render_cards, attach_refs.
    apply (attach_refs_from (length cards) 0
             {| videos := map (fun c => {| video_src := src c; paused := true |}) cards;
                vdRef := [] |} eq_refl). }
  assert (Hl : length (videos (render_cards cards)) = length cards)
    by (rewrite Hv; apply length_map).
  repeat split; try assumption.
  - intros Hi. unfold handlePlay, handlePause.
    rewrite (mounted_slot _ i Hm) by lia. eauto.
  - unfold handlePlay. rewrite Hm, list_lookup_fmap, lookup_seq_ge by lia. reflexivity.
  - unfold handlePause. rewrite Hm, list_lookup_fmap, lookup_seq_ge by lia. reflexivity.
Qed.

(** X5. When the video of a mounted card goes away (its ref callback is
    called with nothing), hovering that card throws, while every other card
    still plays and pauses its own video as before. *)
Theorem cleared_ref_breaks_only_its_card (r : refs) (i j : nat) :
  cards_mounted r -> i < length (videos r) -> j < length (videos r) -> j <> i ->
  handlePlay i (ref_callback i None r) = inl TypeError /\
  handlePause i (ref_callback i None r) = inl TypeError /\
  handlePlay j (ref_callback i None r) =
    inr {| videos := alter play j (videos r); vdRef := <[i := None]> (vdRef r) |} /\
  handlePause j (ref_callback i None r) =
    inr {| videos := alter pause j (videos r); vdRef := <[i := None]> (vdRef r) |}.
Proof.
  intros Hm Hi Hj Hne.
  assert (Hlen : length (vdRef r) = length (videos r))
    by (rewrite Hm, length_map, length_seq; reflexivity).
  assert (Hset : vdRef (ref_callback i None r) = <[i := None]> (vdRef r)).
  { unfold ref_callback, array_set. simpl.
    destruct (Nat.ltb_spec i (length (vdRef r))); [reflexivity | lia]. }
  unfold handlePlay, handlePause. rewrite Hset.
  rewrite list_lookup_insert_eq by lia.
  rewrite list_lookup_insert_ne by congruence.
  rewrite (mounted_slot r j Hm Hj). repeat split.
Qed.

Lemma cleared_ref_breaks_only_its_card_witness :
  handlePlay 1 (ref_callback 1 None (render_cards sample_cards)) = inl TypeError /\
  handlePause 1 (ref_callback 1 None (render_cards sample_cards)) = inl TypeError /\
  handlePlay 3 (ref_callback 1 None (render_cards sample_cards)) =
    inr {| videos := alter play 3 (videos (render_cards sample_cards));
           vdRef := <[1 := None]> (vdRef (render_cards sample_cards)) |} /\
  handlePause 3 (ref_callback 1 None (render_cards sample_cards)) =
    inr {| videos := alter pause 3 (videos (render_cards sample_cards));
           vdRef := <[1 := None]> (vdRef (render_cards sample_cards)) |}.
Proof.
  apply (cleared_ref_breaks_only_its_card (render_cards sample_cards) 1 3).
  - reflexivity.
  - simpl. lia.
  - simpl. lia.
  - discriminate.
Defined.

Lemma alter_alter_same {A : Type} (f g : A -> A) (l : list A) (i : nat) :
  alter f i (alter g i l) = alter (fun x => f (g x)) i l.
Proof.
  apply list_eq. intros j. destruct (decide (i = j)) as [<-|Hne].
  - rewrite !list_lookup_alter_eq. destruct (l !! i); reflexivity.
  - rewrite !list_lookup_alter_ne by exact Hne. reflexivity.
Qed.

Lemma dispatch_mounted (r : refs) (e : hover) :
  cards_mounted r -> card_of e < length (videos r) ->
  dispatch e r =
  inr {| videos := alter (match e with Enter _ => play | Leave _ => pause end)
                         (card_of e) (videos r);
         vdRef := vdRef r |}.
Proof.
  intros Hm Hi. pose proof (mounted_slot r (card_of e) Hm Hi) as Hslot.
  destruct e as [i | i]; simpl in *;
    unfold onMouseEnter, onMouseLeave, handlePlay, handlePause; rewrite Hslot; reflexivity.
Qed.

(** X6. On a page whose cards are mounted, any sequence of hover events on
    its cards is handled without an error and leaves the ref array and the
    number of videos as they were; afterwards the play state of each video
    is the one its own card's last event asked for (playing after an enter,
    paused after a leave), and the one it had before if no event concerned
    its card: events on other cards never reach it. *)
Theorem hover_state_follows_last_event (r : refs) (es : list hover) :
  cards_mounted r ->
  Forall (fun e => card_of e < length (videos r)) es ->
  exists r',
    hovers es r = ([], r') /\
    vdRef r' = vdRef r /\
    length (videos r') = length (videos r) /\
    forall i vd, videos r !! i = Some vd ->
      exists vd', videos r' !! i = Some vd' /\
        paused vd' = match last_on i es with
                     | Some (Enter _) => false
                     | Some (Leave _) => true
                     | None => paused vd
                     end.
Proof.
  intros Hm. induction es as [|e es IH] using rev_ind; intros Hes.
  - exists r. repeat split. intros i vd Hvd. exists vd. split; [exact Hvd | reflexivity].
  - apply Forall_app in Hes as [Hes He]. apply Forall_inv in He.
    destruct (IH Hes) as (r1 & Hrun & Hrefs & Hlen & Hstate).
    assert (Hm1 : cards_mounted r1).
    { unfold cards_mounted. rewrite Hrefs, Hlen. exact Hm. }
    assert (He1 : card_of e < length (videos r1)) by (rewrite Hlen; exact He).
    eexists. unfold hovers in *. rewrite fold_left_app, Hrun. cbn [fold_left].
    unfold handle_event. cbn [fst snd]. rewrite (dispatch_mounted r1 e Hm1 He1).
    split; [reflexivity|]. cbn [vdRef videos].
    split; [exact Hrefs|]. split; [rewrite length_alter; exact Hlen|].
    intros i vd Hvd. destruct (Hstate i vd Hvd) as (vd1 & Hvd1 & Hp1).
    unfold last_on in *. rewrite rev_app_distr. cbn [rev app find].
    destruct (Nat.eqb_spec (card_of e) i) as [Heq | Hne].
    + exists ((match e with Enter _ => play | Leave _ => pause end) vd1).
      rewrite Heq, list_lookup_alter_eq, Hvd1.
      split; [reflexivity|]. destruct e; reflexivity.
    + exists vd1. rewrite list_lookup_alter_ne by exact Hne.
      split; [exact Hvd1 | exact Hp1].
Qed.

Lemma hover_state_follows_last_event_witness :
  exists r',
    hovers [Enter 2; Leave 2; Enter 0; Enter 2; Leave 0] (render_cards sample_cards)
      = ([], r') /\
    vdRef r' = vdRef (render_cards sample_cards) /\
    length (videos r') = length (videos (render_cards sample_cards)) /\
    forall i vd, videos (render_cards sample_cards) !! i = Some vd ->
      exists vd', videos r' !! i = Some vd' /\
        paused vd' = match last_on i [Enter 2; Leave 2; Enter 0; Enter 2; Leave 0] with
                     | Some (Enter _) => false
                     | Some (Leave _) => true
                     | None => paused vd
                     end.
Proof.
  apply (hover_state_follows_last_event (render_cards sample_cards)
           [Enter 2; Leave 2; Enter 0; Enter 2; Leave 0]).
  - reflexivity.
  - repeat constructor.
Defined.

End TestimonialMore.

Section IsolationFacts.
Import Gsap React Page Site.









Lemma keeps_ret {A : Type} (R : A -> A -> Prop) pre (x x0 : A) :
  R x x0 -> keeps R pre (mret x) (mret x0).
Proof. intros HR w w0 Hw. split; assumption. Qed.

Lemma keeps_bind {A B : Type} (R : A -> A -> Prop) (S : B -> B -> Prop) pre
    (c c0 : M A) (k k0 : A -> M B) :
  keeps R pre c c0 ->
  (forall x x0, R x x0 -> keeps S pre (k x) (k0 x0)) ->
  keeps S pre (c ≫= k) (c0 ≫= k0).
Proof.
  intros Hc Hk w w0 Hw. unfold mbind, M_bind.
  destruct (Hc w w0 Hw) as [HR Hw'].
  destruct (c w) as [x w1], (c0 w0) as [x0 w1']. simpl in *.
  apply Hk; assumption.
Qed.

Lemma keeps_timeline pre (v : vars) :
  keeps (shifted (animations pre)) pre (gsap_timeline v) (gsap_timeline v).
Proof.
  intros w w0 (Ha & Hd & Hs & Ht). unfold gsap_timeline, shifted, behind. simpl.
  rewrite Ha, length_app, app_assoc. auto.
Qed.

Lemma keeps_tl_add pre dr (h h0 : nat) t v pos :
  shifted (animations pre) h h0 -> keeps eq pre (tl_add dr h t v pos) (tl_add dr h0 t v pos).
Proof.
  intros -> w w0 (Ha & Hd & Hs & Ht). unfold tl_add, behind. simpl.
  rewrite Ha, Hd, alter_app_r. auto.
Qed.

Lemma keeps_tween pre dr t v : keeps eq pre (gsap_tween dr t v) (gsap_tween dr t v).
Proof.
  intros w w0 (Ha & Hd & Hs & Ht). unfold gsap_tween, behind. simpl.
  rewrite Ha, Hd, app_assoc. auto.
Qed.

Lemma keeps_set pre t v : keeps eq pre (gsap_set t v) (gsap_set t v).
Proof.
  intros w w0 (Ha & Hd & Hs & Ht). unfold gsap_set, behind. simpl.
  rewrite Ht, Hd, app_assoc. auto.
Qed.

Lemma keeps_split pre sel ty : keeps eq pre (SplitText_create sel ty) (SplitText_create sel ty).
Proof.
  intros w w0 (Ha & Hd & Hs & Ht). unfold SplitText_create, behind. simpl.
  rewrite Hs, Hd, app_assoc. auto.
Qed.

Lemma keeps_remove pre sel name :
  keeps eq pre (removeAttribute_all sel name) (removeAttribute_all sel name).
Proof.
  intros w w0 (Ha & Hd & Hs & Ht). unfold removeAttribute_all, behind. simpl.
  rewrite Hd. auto.
Qed.

Lemma keeps_forEach pre (n first : nat) (f : nat -> M unit) :
  (forall i, keeps eq pre (f i) (f i)) ->
  keeps eq pre (TestimonialSection.forEach_index n first f)
               (TestimonialSection.forEach_index n first f).
Proof.
  intros Hf. revert first. induction n as [|n IH]; intros first; simpl.
  - apply keeps_ret. reflexivity.
  - eapply keeps_bind; [apply Hf | intros ? ? _; apply IH].
Qed.

Ltac keeps_walk :=
  match goal with
  | |- keeps _ _ (mret _) (mret _) => apply (keeps_ret eq); reflexivity
  | |- keeps _ _ (tl_to _ _ _ _) _ => apply keeps_tl_add; assumption
  | |- keeps _ _ (tl_from _ _ _ _) _ => apply keeps_tl_add; assumption
  | |- keeps _ _ (gsap_to _ _) _ => apply keeps_tween
  | |- keeps _ _ (gsap_from _ _) _ => apply keeps_tween
  | |- keeps _ _ (gsap_set _ _) _ => apply keeps_set
  | |- keeps _ _ (gsap_timeline _) _ => apply keeps_timeline
  | |- keeps _ _ (SplitText_create _ _) _ => apply keeps_split
  | |- keeps _ _ (removeAttribute_all _ _) _ => apply keeps_remove
  | |- keeps _ _ (_ ≫= _) _ =>
      eapply keeps_bind; [keeps_walk | intros ? ? ?; subst; keeps_walk]
  end.

Lemma components_keep cards c th v pre :
  In (c, th) (components cards) -> keeps eq pre (setup c v) (setup c v).
Proof.
  simpl.
  intros [H|[H|[H|[H|[H|[H|[H|[H|[]]]]]]]]]; injection H as <- _.
  - change (setup HeroSection.HeroSection v) with (HeroSection.setup v).
    unfold HeroSection.setup. destruct (fontsLoaded v); cbn [negb]; keeps_walk.
  - change (setup MessageSection.MessageSection v) with (MessageSection.setup v).
    unfold MessageSection.setup. destruct (fontsLoaded v); cbn [negb]; keeps_walk.
  - change (setup FlavorTitle.FlavorTitle v) with (FlavorTitle.setup v).
    unfold FlavorTitle.setup. destruct (fontsLoaded v); cbn [negb]; keeps_walk.
  - change (setup FlavorSlider.FlavorSlider v) with (FlavorSlider.setup v).
    unfold FlavorSlider.setup. destruct (FlavorSlider.isTablet v); cbn [negb]; keeps_walk.
  - change (setup NutritionSection.NutritionSection v) with (NutritionSection.setup v).
    unfold NutritionSection.setup. destruct (fontsLoaded v); cbn [negb]; keeps_walk.
  - change (setup BenefitSection.BenefitSection v) with (BenefitSection.setup v).
    unfold BenefitSection.setup. keeps_walk.
  - change (setup VideoPinSection.VideoPinSection v) with (VideoPinSection.setup v).
    unfold VideoPinSection.setup. destruct (VideoPinSection.isMobile v); cbn [negb]; keeps_walk.
  - change (setup (TestimonialSection.TestimonialSection cards) v)
      with (TestimonialSection.setup cards v).
    unfold TestimonialSection.setup.
    destruct (TestimonialSection.isMobile v); cbn [negb].
    + eapply keeps_bind; [keeps_walk | intros ? ? _].
      eapply keeps_bind; [keeps_walk | intros ? ? ?].
      eapply keeps_bind; [keeps_walk | intros ? ? _].
      eapply keeps_bind; [keeps_walk | intros ? ? _].
      eapply keeps_bind; [keeps_walk | intros ? ? _].
      apply keeps_forEach. intros i. unfold TestimonialSection.reveal_card. keeps_walk.
    + keeps_walk.
Qed.

(** X7. No setup of the site touches what it did not create: run on a page
    whose engine already holds animations, splits and immediate [gsap.set]
    calls (those of the other sections, or of an earlier run), the setup of
    any component leaves them all in place, unchanged, and adds behind them
    exactly what it builds on the same document with an empty engine; and
    what it does to the document does not depend on them. *)
Theorem setups_only_append (cards : list TestimonialSection.card) (c : component)
    (th : option Z) (v : view) (w : world) :
  In (c, th) (components cards) ->
  animations (exec (setup c v) w) =
    animations w ++ animations (exec (setup c v) (blank (document w))) /\
  splits (exec (setup c v) w) =
    splits w ++ splits (exec (setup c v) (blank (document w))) /\
  sets (exec (setup c v) w) =
    sets w ++ sets (exec (setup c v) (blank (document w))) /\
  document (exec (setup c v) w) = document (exec (setup c v) (blank (document w))).
Proof.
  intros Hc.
  destruct (components_keep cards c th v w Hc w (blank (document w)))
    as [_ (Ha & Hd & Hs & Ht)].
  - unfold behind, blank. simpl. rewrite !app_nil_r. auto.
  - auto.
Qed.

Lemma setups_only_append_witness :
  animations (exec (setup (TestimonialSection.TestimonialSection TestimonialSection.sample_cards)
                      (mobile true))
                (snd nutrition_loaded)) =
    animations (snd nutrition_loaded) ++
    animations (exec (setup (TestimonialSection.TestimonialSection
                               TestimonialSection.sample_cards) (mobile true))
                  (blank (document (snd nutrition_loaded)))) /\
  splits (exec (setup (TestimonialSection.TestimonialSection TestimonialSection.sample_cards)
                  (mobile true))
            (snd nutrition_loaded)) =
    splits (snd nutrition_loaded) ++
    splits (exec (setup (TestimonialSection.TestimonialSection
                           TestimonialSection.sample_cards) (mobile true))
              (blank (document (snd nutrition_loaded)))) /\
  sets (exec (setup (TestimonialSection.TestimonialSection TestimonialSection.sample_cards)
                (mobile true))
          (snd nutrition_loaded)) =
    sets (snd nutrition_loaded) ++
    sets (exec (setup (TestimonialSection.TestimonialSection
                         TestimonialSection.sample_cards) (mobile true))
            (blank (document (snd nutrition_loaded)))) /\
  document (exec (setup (TestimonialSection.TestimonialSection TestimonialSection.sample_cards)
                    (mobile true))
              (snd nutrition_loaded)) =
    document (exec (setup (TestimonialSection.TestimonialSection
                             TestimonialSection.sample_cards) (mobile true))
                (blank (document (snd nutrition_loaded)))).
Proof.
  apply (setups_only_append TestimonialSection.sample_cards
           (TestimonialSection.TestimonialSection TestimonialSection.sample_cards)
           (Some 768%Z) (mobile true) (snd nutrition_loaded)).
  simpl. do 7 right. left. reflexivity.
Defined.

End IsolationFacts.

Section UnmountFacts.
Import Gsap React Page Site.








End UnmountFacts.

Section TestimonialSetupFacts.
Import Dom Gsap React Page Site.
#[local] Open Scope Z_scope.

Lemma exec_bind {A B : Type} (c : M A) (k : A -> M B) (w : world) :
  exec (c ≫= k) w = exec (k (fst (c w))) (snd (c w)).
Proof. unfold exec, mbind, M_bind. destruct (c w). reflexivity. Qed.

Lemma forEach_reveal (n first : nat) (w : world) :
  exec (TestimonialSection.forEach_index n first TestimonialSection.reveal_card) w =
  {| document := document w;
     animations := animations w ++ map (card_tween (document w)) (seq first n);
     splits := splits w; sets := sets w |}.
Proof.
  revert first w. induction n as [|n IH]; intros first w.
  - destruct w. unfold exec. simpl. rewrite app_nil_r. reflexivity.
  - change (exec (TestimonialSection.forEach_index (S n) first TestimonialSection.reveal_card) w)
      with (exec (TestimonialSection.forEach_index n (S first) TestimonialSection.reveal_card)
                 (exec (TestimonialSection.reveal_card first) w)).
    rewrite IH. unfold exec at 1 2 3 4. simpl. rewrite <- app_assoc. reflexivity.
Qed.

Lemma card_tween_unpinned (d : node) (l : list nat) :
  existsb is_pinned (map (card_tween d) l) = false.
Proof. induction l as [|i l IH]; simpl; [reflexivity | exact IH]. Qed.

Lemma testimonials_mobile_run (cards : list TestimonialSection.card) (v : view) (d : node) :
  innerWidth v <= 768 ->
  exec (TestimonialSection.setup cards v) (blank d) =
    {| document := d;
       animations :=
         {| live := true;
            what := Timeline
              [scrollTrigger [trigger [[Class "testimonials-section"]]; start (Place "top 80%");
                              end_ (Place "bottom 20%"); scrub (ScrubSmooth 1000)]]
              (title_steps From d
                 [prop "xPercent" (Num 70); prop "opacity" (Num 0)]
                 [prop "xPercent" (Num 25); prop "opacity" (Num 0)]
                 [prop "xPercent" (Num (-50)); prop "opacity" (Num 0)]) |}
         :: map (card_tween d) (seq 0 (length cards));
       splits := [];
       sets := [(map Elem (querySelectorAll [[Class "vd-card"]] d),
                 [prop "yPercent" (Num 150); prop "opacity" (Num 0)])] |}.
Proof.
  intros Hw.
  unfold TestimonialSection.setup, TestimonialSection.isMobile, max_width.
  rewrite (proj2 (Z.leb_le _ _) Hw). cbn [negb].
  rewrite !exec_bind. rewrite forEach_reveal. reflexivity.
Qed.

Lemma testimonials_desktop_run (cards : list TestimonialSection.card) (v : view) (d : node) :
  768 < innerWidth v ->
  exec (TestimonialSection.setup cards v) (blank d) =
    {| document := d;
       animations :=
         [ {| live := true;
              what := Timeline
                [scrollTrigger [trigger [[Class "testimonials-section"]];
                                start (Place "top bottom"); end_ (Place "200% top");
                                scrub ScrubTrue]]
                (title_steps To d [prop "xPercent" (Num 70)] [prop "xPercent" (Num 25)]
                   [prop "xPercent" (Num (-50))]) |};
           {| live := true;
              what := Timeline
                [scrollTrigger [trigger [[Class "testimonials-section"]];
                                start (Place "10% top"); end_ (Place "200% top");
                                scrub (ScrubSmooth 1500); pin true]]
                [ {| dir := From;
                     targets := map Elem (querySelectorAll [[Class "vd-card"]] d);
                     step_vars := [prop "yPercent" (Num 150); stagger 200; ease "power1.inOut"];
                     startTime := 0;
                     totalDuration :=
                       500 + 200 * Z.of_nat (Nat.pred (length
                         (map Elem (querySelectorAll [[Class "vd-card"]] d)))) |} ] |} ];
       splits := [];
       sets := [(map Elem (querySelectorAll [[Class "testimonials-section"]] d),
                 [prop "marginTop" (Str "-140vh")])] |}.
Proof.
  intros Hw.
  unfold TestimonialSection.setup, TestimonialSection.isMobile, max_width.
  rewrite (proj2 (Z.leb_gt _ _) Hw). cbn [negb].
  reflexivity.
Qed.

(** X9. At widths up to 768px the testimonials setup hides the cards at
    once, builds the title timeline, whose three steps start together, and
    then one scrubbed tween per card, in card order and for any number of
    cards: card [i] is selected as the [(i+1)]-th child and revealed over the
    scroll window from [top (80 - 10 i)%] to [top (60 - 10 i)%], with no
    lower bound on the percentages.  Nothing is pinned. *)
Theorem testimonials_mobile_reveals_card_by_card
    (cards : list TestimonialSection.card) (v : view) (d : node) :
  innerWidth v <= 768 ->
  animations (exec (TestimonialSection.setup cards v) (blank d)) =
    {| live := true;
       what := Timeline
         [scrollTrigger [trigger [[Class "testimonials-section"]]; start (Place "top 80%");
                         end_ (Place "bottom 20%"); scrub (ScrubSmooth 1000)]]
         (title_steps From d
            [prop "xPercent" (Num 70); prop "opacity" (Num 0)]
            [prop "xPercent" (Num 25); prop "opacity" (Num 0)]
            [prop "xPercent" (Num (-50)); prop "opacity" (Num 0)]) |}
    :: map (card_tween d) (seq 0 (length cards)) /\
  sets (exec (TestimonialSection.setup cards v) (blank d)) =
    [(map Elem (querySelectorAll [[Class "vd-card"]] d),
      [prop "yPercent" (Num 150); prop "opacity" (Num 0)])] /\
  existsb is_pinned (animations (exec (TestimonialSection.setup cards v) (blank d))) = false /\
  length (animations (exec (TestimonialSection.setup cards v) (blank d)))
    = S (length cards).
Proof.
  intros Hw. rewrite (testimonials_mobile_run cards v d Hw). cbn [animations sets].
  repeat split.
  - cbn [existsb]. rewrite card_tween_unpinned. reflexivity.
  - cbn [length]. rewrite length_map, length_seq. reflexivity.
Qed.

Lemma testimonials_mobile_reveals_card_by_card_witness :
  animations (exec (TestimonialSection.setup TestimonialSection.sample_cards (mobile true))
                (blank (TestimonialSection.markup TestimonialSection.sample_cards))) =
    {| live := true;
       what := Timeline
         [scrollTrigger [trigger [[Class "testimonials-section"]]; start (Place "top 80%");
                         end_ (Place "bottom 20%"); scrub (ScrubSmooth 1000)]]
         (title_steps From (TestimonialSection.markup TestimonialSection.sample_cards)
            [prop "xPercent" (Num 70); prop "opacity" (Num 0)]
            [prop "xPercent" (Num 25); prop "opacity" (Num 0)]
            [prop "xPercent" (Num (-50)); prop "opacity" (Num 0)]) |}
    :: map (card_tween (TestimonialSection.markup TestimonialSection.sample_cards))
           (seq 0 (length TestimonialSection.sample_cards)) /\
  sets (exec (TestimonialSection.setup TestimonialSection.sample_cards (mobile true))
          (blank (TestimonialSection.markup TestimonialSection.sample_cards))) =
    [(map Elem (querySelectorAll [[Class "vd-card"]]
                  (TestimonialSection.markup TestimonialSection.sample_cards)),
      [prop "yPercent" (Num 150); prop "opacity" (Num 0)])] /\
  existsb is_pinned
    (animations (exec (TestimonialSection.setup TestimonialSection.sample_cards (mobile true))
                   (blank (TestimonialSection.markup TestimonialSection.sample_cards)))) = false /\
  length (animations (exec (TestimonialSection.setup TestimonialSection.sample_cards (mobile true))
                        (blank (TestimonialSection.markup TestimonialSection.sample_cards))))
    = S (length TestimonialSection.sample_cards).
Proof.
  apply (testimonials_mobile_reveals_card_by_card TestimonialSection.sample_cards
           (mobile true) (TestimonialSection.markup TestimonialSection.sample_cards)).
  simpl. lia.
Defined.

(** X10. Above 768px the testimonials setup pulls the section up at once
    and builds two timelines whatever the list of cards: the parallax of the
    three title words, which start together, and after it the pinned reveal,
    a single step over every card of the document at once, each card 0.2 s
    after the one before. *)
Theorem testimonials_desktop_pins_one_reveal
    (cards : list TestimonialSection.card) (v : view) (d : node) :
  768 < innerWidth v ->
  map is_pinned (animations (exec (TestimonialSection.setup cards v) (blank d)))
    = [false; true] /\
  start_times (exec (TestimonialSection.setup cards v) (blank d)) = [[0; 0; 0]; [0]] /\
  (exists s, steps_of (exec (TestimonialSection.setup cards v) (blank d)) 1 = [s] /\
             targets s = map Elem (querySelectorAll [[Class "vd-card"]] d) /\
             totalDuration s =
               500 + 200 * Z.of_nat (Nat.pred (length (querySelectorAll [[Class "vd-card"]] d)))) /\
  sets (exec (TestimonialSection.setup cards v) (blank d)) =
    [(map Elem (querySelectorAll [[Class "testimonials-section"]] d),
      [prop "marginTop" (Str "-140vh")])] /\
  exec (TestimonialSection.setup cards v) (blank d)
    = exec (TestimonialSection.setup [] v) (blank d).
Proof.
  intros Hw. rewrite !(testimonials_desktop_run _ v d Hw).
  repeat split. eexists. split; [reflexivity|]. split; [reflexivity|].
  cbn [totalDuration]. rewrite length_map. reflexivity.
Qed.

Lemma testimonials_desktop_pins_one_reveal_witness :
  map is_pinned
      (animations (exec (TestimonialSection.setup TestimonialSection.sample_cards (desktop true))
                     (blank (TestimonialSection.markup TestimonialSection.sample_cards))))
    = [false; true] /\
  start_times (exec (TestimonialSection.setup TestimonialSection.sample_cards (desktop true))
                 (blank (TestimonialSection.markup TestimonialSection.sample_cards)))
    = [[0; 0; 0]; [0]] /\
  (exists s,
     steps_of (exec (TestimonialSection.setup TestimonialSection.sample_cards (desktop true))
                 (blank (TestimonialSection.markup TestimonialSection.sample_cards))) 1 = [s] /\
     targets s = map Elem (querySelectorAll [[Class "vd-card"]]
                             (TestimonialSection.markup TestimonialSection.sample_cards)) /\
     totalDuration s =
       500 + 200 * Z.of_nat (Nat.pred (length (querySelectorAll [[Class "vd-card"]]
                (TestimonialSection.markup TestimonialSection.sample_cards))))) /\
  sets (exec (TestimonialSection.setup TestimonialSection.sample_cards (desktop true))
          (blank (TestimonialSection.markup TestimonialSection.sample_cards))) =
    [(map Elem (querySelectorAll [[Class "testimonials-section"]]
                  (TestimonialSection.markup TestimonialSection.sample_cards)),
      [prop "marginTop" (Str "-140vh")])] /\
  exec (TestimonialSection.setup TestimonialSection.sample_cards (desktop true))
       (blank (TestimonialSection.markup TestimonialSection.sample_cards))
    = exec (TestimonialSection.setup [] (desktop true))
           (blank (TestimonialSection.markup TestimonialSection.sample_cards)).
Proof.
  apply (testimonials_desktop_pins_one_reveal TestimonialSection.sample_cards (desktop true)
           (TestimonialSection.markup TestimonialSection.sample_cards)).
  simpl. lia.
Defined.

(** X11. Pinning is for wide viewports only, on every document: the hero,
    message, flavor title, nutrition and benefit setups never ask for it; the
    flavor slider asks for it exactly above 1024px; the video section and the
    testimonials exactly above 768px. *)
Theorem pinning_is_for_wide_viewports (cards : list TestimonialSection.card)
    (c : component) (th : option Z) (v : view) (d : node) :
  In (c, th) (components cards) ->
  existsb is_pinned (animations (exec (setup c v) (blank d))) =
  match th with
  | None => false
  | Some px => negb (innerWidth v <=? px)
  end.
Proof.
  simpl.
  intros [H|[H|[H|[H|[H|[H|[H|[H|[]]]]]]]]]; injection H as <- <-.
  - change (setup HeroSection.HeroSection v) with (HeroSection.setup v).
    unfold HeroSection.setup. destruct (fontsLoaded v); reflexivity.
  - change (setup MessageSection.MessageSection v) with (MessageSection.setup v).
    unfold MessageSection.setup. destruct (fontsLoaded v); reflexivity.
  - change (setup FlavorTitle.FlavorTitle v) with (FlavorTitle.setup v).
    unfold FlavorTitle.setup. destruct (fontsLoaded v); reflexivity.
  - change (setup FlavorSlider.FlavorSlider v) with (FlavorSlider.setup v).
    unfold FlavorSlider.setup, FlavorSlider.isTablet, max_width.
    destruct (innerWidth v <=? 1024); reflexivity.
  - change (setup NutritionSection.NutritionSection v) with (NutritionSection.setup v).
    unfold NutritionSection.setup. destruct (fontsLoaded v); reflexivity.
  - reflexivity.
  - change (setup VideoPinSection.VideoPinSection v) with (VideoPinSection.setup v).
    unfold VideoPinSection.setup, VideoPinSection.isMobile, max_width.
    destruct (innerWidth v <=? 768); reflexivity.
  - change (setup (TestimonialSection.TestimonialSection cards) v)
      with (TestimonialSection.setup cards v).
    destruct (Z.leb_spec (innerWidth v) 768) as [Hw|Hw].
    + rewrite (testimonials_mobile_run cards v d Hw). cbn [animations existsb].
      rewrite card_tween_unpinned. reflexivity.
    + rewrite (testimonials_desktop_run cards v d Hw). reflexivity.
Qed.

Lemma pinning_is_for_wide_viewports_witness :
  existsb is_pinned
    (animations (exec (setup VideoPinSection.VideoPinSection (mobile true))
                   (blank BenefitSection.markup))) =
  negb (innerWidth (mobile true) <=? 768).
Proof.
  apply (pinning_is_for_wide_viewports [] VideoPinSection.VideoPinSection (Some 768)
           (mobile true) BenefitSection.markup).
  simpl. do 6 right. left. reflexivity.
Defined.

(** X12. At every width and on every document the flavor slider builds the
    title parallax timeline last, with its three steps starting together at 0
    and the timeline therefore lasting the half second of one step; above
    1024px the pinned timeline comes before it, with a single step and a
    scroll distance of the slider's overflow plus 1500px. *)
Theorem flavor_title_steps_start_together (v : view) (d : node) :
  start_times (exec (FlavorSlider.setup v) (blank d)) =
    (if innerWidth v <=? 1024 then [[0; 0; 0]] else [[0]; [0; 0; 0]]) /\
  map (fun a => get_scrollTrigger (animation_vars a))
      (animations (exec (FlavorSlider.setup v) (blank d))) =
    (if innerWidth v <=? 1024 then [] else
       [Some [trigger [[Class "flavor-section"]]; start (Place "2% top");
              end_ (PlusPx (scrollWidth v - innerWidth v + 1500)); scrub ScrubTrue;
              pin true]])
    ++ [Some [trigger [[Class "flavor-section"]]; start (Place "top top");
              end_ (Place "bottom 80%"); scrub ScrubTrue]] /\
  timeline_end (steps_of (exec (FlavorSlider.setup v) (blank d))
                         (if innerWidth v <=? 1024 then 0%nat else 1%nat)) = 500.
Proof.
  unfold FlavorSlider.setup, FlavorSlider.isTablet, max_width.
  destruct (innerWidth v <=? 1024); repeat split.
Qed.

End TestimonialSetupFacts.

Section OwnMarkupFacts.
Import Dom Gsap React Page Site.
#[local] Open Scope Z_scope.

(** X13. On the markup the components themselves render, no step is left
    without targets, at any viewport width: every selector of the hero
    setup finds its one element whichever media the width selects (and the
    title its 17 characters), the message setup its 6 and 8 words, its
    reveal box and the 24 words of its paragraph, each of the four benefit
    steps its own title, and the video setup its box whenever it builds
    anything. *)
Theorem selectors_match_own_markup (width slider : Z) :
  target_counts (exec (HeroSection.setup (ready_view width slider))
                   (blank (HeroSection.markup (ready_view width slider))))
    = [[1; 1; 17]; [1]]%nat /\
  target_counts (exec (MessageSection.setup (ready_view width slider))
                   (blank MessageSection.markup))
    = [[6]; [8]; [1]; [24]]%nat /\
  target_counts (exec (BenefitSection.setup (ready_view width slider))
                   (blank BenefitSection.markup))
    = [[1; 1; 1; 1]]%nat /\
  target_counts (exec (VideoPinSection.setup (ready_view width slider))
                   (blank BenefitSection.markup))
    = (if width <=? 768 then [] else [[1]]%nat).
Proof.
  split.
  { unfold HeroSection.markup, HeroSection.isMobile, HeroSection.isTablet, max_width,
      ready_view. cbn [innerWidth].
    destruct (width <=? 1024), (width <=? 768); vm_compute; reflexivity. }
  split; [vm_compute; reflexivity|].
  split; [vm_compute; reflexivity|].
  unfold VideoPinSection.setup, VideoPinSection.isMobile, max_width, ready_view.
  cbn [innerWidth]. destruct (width <=? 768); vm_compute; reflexivity.
Qed.

End OwnMarkupFacts.

Section BuildOnceFacts.
Import Gsap React Page Site.







End BuildOnceFacts.

Section AppFacts.
Import App.

Lemma useGSAP_steps (s : shell) (b : bool) :
  memo s = [b] ->
  hook (useGSAP s) = hook s /\
  memo (useGSAP s) = [Fonts.fontsLoaded (hook s)] /\
  smoothers (useGSAP s) = smoothers s /\
  frames (useGSAP s) =
    frames s ++ (if negb b && Fonts.fontsLoaded (hook s) then [initScrollSmoother] else []).
Proof.
  intros Hm. unfold useGSAP. rewrite Hm.
  destruct b, (Fonts.fontsLoaded (hook s)) eqn:Hl; simpl;
    rewrite ?Hl, ?app_nil_r; auto.
Qed.

Lemma frame_flushes (fs : list frame_callback) (s : shell) :
  fold_left run_frame_callback fs s =
  {| hook := hook s; memo := memo s; frames := frames s;
     smoothers := smoothers s ++ map (fun _ => {| smooth := 3; effects := true |}) fs |}.
Proof.
  revert s. induction fs as [|[] fs IH]; intros s; simpl.
  - rewrite app_nil_r. destruct s; reflexivity.
  - rewrite IH. simpl. rewrite <- app_assoc. reflexivity.
Qed.

(** What the shell keeps true: its callback has run for the current value of
    the signal, and the surfaces created and requested add up to one exactly
    when the signal is true. *)
Lemma play_keeps (doc : Fonts.host) (es : list event) :
  memo (play doc es) = [Fonts.fontsLoaded (hook (play doc es))] /\
  length (smoothers (play doc es)) + length (frames (play doc es))
    = (if Fonts.fontsLoaded (hook (play doc es)) then 1 else 0) /\
  Forall (fun sv => sv = {| smooth := 3; effects := true |}) (smoothers (play doc es)).
Proof.
  unfold play. rewrite <- (rev_involutive es).
  induction (rev es) as [|e l IH]; simpl.
  - unfold first_render.
    destruct (useGSAP_steps {| hook := Fonts.mount doc; memo := [false]; frames := [];
                               smoothers := [] |} false eq_refl) as (Hh & Hm & Hs & Hf).
    change (useGSAP {| hook := Fonts.useState_false; memo := []; frames := [];
                       smoothers := [] |})
      with {| hook := Fonts.useState_false; memo := [false]; frames := []; smoothers := [] |}.
    cbn [memo frames smoothers]. rewrite Hm, Hs, Hf, Hh. cbn [hook smoothers frames].
    destruct (Fonts.fontsLoaded (Fonts.mount doc)); simpl; auto.
  - rewrite fold_left_app. simpl.
    destruct IH as (Hm & Hsum & Hall).
    set (s := fold_left (step doc) (rev l) (first_render doc)) in *.
    destruct e; simpl.
    + destruct (useGSAP_steps {| hook := Fonts.tick doc (hook s); memo := memo s;
                                 frames := frames s; smoothers := smoothers s |}
                  (Fonts.fontsLoaded (hook s)) Hm) as (Hh & Hm' & Hs & Hf).
      rewrite Hm', Hs, Hf, Hh. cbn [hook smoothers frames].
      split; [reflexivity|]. split; [|exact Hall].
      rewrite length_app.
      destruct (Fonts.fontsLoaded (hook s)) eqn:Hl.
      * rewrite (tick_keeps doc _ Hl). simpl. lia.
      * destruct (Fonts.fontsLoaded (Fonts.tick doc (hook s))); simpl; lia.
    + rewrite frame_flushes. cbn [hook memo smoothers frames].
      split; [exact Hm|]. split.
      * rewrite length_app, length_map. simpl. lia.
      * apply Forall_app. split; [exact Hall|].
        apply Forall_fmap, Forall_true. intros ?. reflexivity.
Qed.

Lemma step_at_rest (doc : Fonts.host) (s : shell) (e : event) :
  Fonts.fontsLoaded (hook s) = true -> memo s = [true] -> frames s = [] ->
  Fonts.fontsLoaded (hook (step doc s e)) = true /\ memo (step doc s e) = [true] /\
  frames (step doc s e) = [] /\ smoothers (step doc s e) = smoothers s.
Proof.
  intros Hl Hm Hf. destruct e; simpl.
  - destruct (useGSAP_steps {| hook := Fonts.tick doc (hook s); memo := memo s;
                               frames := frames s; smoothers := smoothers s |}
                true Hm) as (Hh & Hm' & Hs & Hf').
    rewrite Hh, Hm', Hs, Hf'. cbn [hook frames smoothers].
    rewrite (tick_keeps doc _ Hl), Hf. auto.
  - rewrite Hf. simpl. auto.
Qed.

Lemma play_at_rest (doc : Fonts.host) (es : list event) (s : shell) :
  Fonts.fontsLoaded (hook s) = true -> memo s = [true] -> frames s = [] ->
  frames (fold_left (step doc) es s) = [] /\
  smoothers (fold_left (step doc) es s) = smoothers s.
Proof.
  revert s. induction es as [|e es IH]; intros s Hl Hm Hf; simpl; [auto|].
  destruct (step_at_rest doc s e Hl Hm Hf) as (Hl' & Hm' & Hf' & Hs').
  destruct (IH _ Hl' Hm' Hf') as [H1 H2]. rewrite H1, H2. auto.
Qed.

(** X15. On every host and under every interleaving of event-loop turns and
    animation frames, the shell requests its smooth-scroll surface only once
    the signal is true and creates it in the next animation frame: the
    surfaces created and the requests pending always add up to one when the
    signal is true and to none when it is false, every surface is created
    with [smooth: 3, effects: true], and after the first frame that follows
    readiness exactly one surface exists, for good. *)
Theorem scroll_smoother_created_once (doc : Fonts.host) (es es' : list event) :
  Fonts.fontsLoaded (hook (play doc es)) = true ->
  length (smoothers (play doc es)) + length (frames (play doc es)) = 1 /\
  length (smoothers (play doc (es ++ Frame :: es'))) = 1 /\
  frames (play doc (es ++ Frame :: es')) = [] /\
  Forall (fun sv => sv = {| smooth := 3; effects := true |})
         (smoothers (play doc (es ++ Frame :: es'))) /\
  (forall es0, Fonts.fontsLoaded (hook (play doc es0)) = false ->
     smoothers (play doc es0) = [] /\ frames (play doc es0) = []).
Proof.
  intros Hl.
  destruct (play_keeps doc es) as (Hm & Hsum & _). rewrite Hl in Hsum, Hm.
  split; [exact Hsum|].
  assert (Hrest : frames (play doc (es ++ Frame :: es')) = [] /\
                  length (smoothers (play doc (es ++ Frame :: es'))) = 1).
  { unfold play in *. rewrite fold_left_app. simpl.
    set (s := fold_left (step doc) es (first_render doc)) in *.
    rewrite frame_flushes. cbn [hook memo frames smoothers].
    destruct (play_at_rest doc es'
                {| hook := hook s; memo := memo s; frames := [];
                   smoothers := smoothers s ++
                     map (fun _ => {| smooth := 3; effects := true |}) (frames s) |})
      as [H1 H2]; [exact Hl | exact Hm | reflexivity |].
    rewrite H1, H2. cbn [smoothers]. rewrite length_app, length_map. auto. }
  destruct Hrest as [Hf Hn].
  split; [exact Hn|]. split; [exact Hf|].
  split; [apply play_keeps|].
  intros es0 H0. destruct (play_keeps doc es0) as (_ & Hsum0 & _).
  rewrite H0 in Hsum0.
  destruct (smoothers (play doc es0)), (frames (play doc es0)); simpl in Hsum0;
    try lia; auto.
Qed.

Lemma scroll_smoother_created_once_witness :
  length (smoothers (play (Fonts.host_ready_at 50) [Frame; Turn]))
  + length (frames (play (Fonts.host_ready_at 50) [Frame; Turn])) = 1 /\
  length (smoothers (play (Fonts.host_ready_at 50) ([Frame; Turn] ++ Frame :: [Turn; Frame]))) = 1 /\
  frames (play (Fonts.host_ready_at 50) ([Frame; Turn] ++ Frame :: [Turn; Frame])) = [] /\
  Forall (fun sv => sv = {| smooth := 3; effects := true |})
         (smoothers (play (Fonts.host_ready_at 50) ([Frame; Turn] ++ Frame :: [Turn; Frame]))) /\
  (forall es0, Fonts.fontsLoaded (hook (play (Fonts.host_ready_at 50) es0)) = false ->
     smoothers (play (Fonts.host_ready_at 50) es0) = [] /\
     frames (play (Fonts.host_ready_at 50) es0) = []).
Proof.
  apply (scroll_smoother_created_once (Fonts.host_ready_at 50) [Frame; Turn] [Turn; Frame]).
  reflexivity.
Defined.

End AppFacts.

Section CleanupFacts.
Import Dom Gsap React Page Cleanup.

Lemma elements_El ancs p k tg cs attrs kids :
  elements ancs p k (El tg cs attrs kids) =
  (p, El tg cs attrs kids, k, ancs)
  :: elements_each (El tg cs attrs kids) k ancs p kids 0 1.
Proof. reflexivity. Qed.

Section Scoped.
Variable c : string.
Variable s : simple.
Hypothesis Hs : position_free s.

Lemma scan_El u p tg cs attrs kids :
  scan c s u p (El tg cs attrs kids) =
  (if passes s tg cs attrs && u then [p] else []) ++ scan_each c s (has_class c cs || u) p kids 0.
Proof. reflexivity. Qed.

Lemma matches_scoped tg cs attrs kids k ancs :
  matches (scoped c s) (El tg cs attrs kids) k ancs =
  passes s tg cs attrs && match_ancestors ancs [[Class c]].
Proof using Hs.
  unfold matches, scoped, passes. cbn [rev app matches_compound forallb].
  destruct s; [| | |destruct Hs]; cbn [matches_simple]; rewrite andb_true_r; reflexivity.
Qed.

Lemma below_cons tg cs attrs kids k ancs :
  match_ancestors ((El tg cs attrs kids, k) :: ancs) [[Class c]] =
  has_class c cs || match_ancestors ancs [[Class c]].
Proof.
  unfold has_class. destruct ancs as [|[x kx] ancs']; simpl; rewrite ?andb_true_r; reflexivity.
Qed.

Lemma selected_app l1 l2 : selected c s (l1 ++ l2) = selected c s l1 ++ selected c s l2.
Proof. unfold selected. rewrite List.filter_app, map_app. reflexivity. Qed.

Lemma selected_scan (t : node) :
  forall ancs p k,
    selected c s (elements ancs p k t) = scan c s (match_ancestors ancs [[Class c]]) p t.
Proof using Hs.
  induction t as [txt | tg cs attrs kids IH] using node_induction; intros ancs p k.
  - reflexivity.
  - rewrite elements_El, scan_El.
    change (selected c s ((p, El tg cs attrs kids, k, ancs) :: ?l))
      with (selected c s ([(p, El tg cs attrs kids, k, ancs)] ++ l)).
    rewrite selected_app. f_equal.
    + unfold selected. cbn [List.filter fst snd]. rewrite matches_scoped.
      destruct (passes s tg cs attrs && match_ancestors ancs [[Class c]]); reflexivity.
    + rewrite <- (below_cons tg cs attrs kids k ancs).
      generalize (El tg cs attrs kids). intros parent.
      enough (H : forall i e,
                 selected c s (elements_each parent k ancs p kids i e) =
                 scan_each c s (match_ancestors ((parent, k) :: ancs) [[Class c]]) p kids i)
        by apply H.
      induction IH as [|kid ks Hk _ IHks]; intros i e; [reflexivity|].
      cbn [elements_each scan_each]. rewrite selected_app, Hk, IHks. reflexivity.
Qed.

Lemma query_scan (d : node) : querySelectorAll (scoped c s) d = scan c s false [] d.
Proof using Hs. exact (selected_scan d [] [] 1). Qed.

Lemma scan_prefix (t : node) :
  forall u p, scan c s u p t = map (app p) (scan c s u [] t).
Proof.
  induction t as [txt | tg cs attrs kids IH] using node_induction; intros u p.
  - reflexivity.
  - rewrite !scan_El, map_app. f_equal.
    + destruct (passes s tg cs attrs && u); [|reflexivity]. simpl. rewrite app_nil_r. reflexivity.
    + generalize 0. generalize (has_class c cs || u). intros u'.
      induction IH as [|kid ks Hk _ IHks]; intros i; [reflexivity|].
      cbn [scan_each]. rewrite map_app, IHks. f_equal.
      rewrite (Hk u' (p ++ [i])), (Hk u' ([] ++ [i])), map_map.
      apply map_ext. intros q. rewrite app_assoc. reflexivity.
Qed.

End Scoped.

Section Strip.
Variables c a : string.

Lemma removed_has_not (attrs : list (string * string)) (tg : string) (cs : list string) :
  passes (HasAttr a) tg cs (List.filter (fun kv => negb (String.eqb (fst kv) a)) attrs) = false.
Proof.
  unfold passes. cbn [matches_simple]. induction attrs as [|kv attrs IH]; [reflexivity|].
  simpl. destruct (String.eqb (fst kv) a) eqn:E; simpl; [exact IH|].
  rewrite E. exact IH.
Qed.

Lemma remove_absent (attrs : list (string * string)) (tg : string) (cs : list string) :
  passes (HasAttr a) tg cs attrs = false ->
  List.filter (fun kv => negb (String.eqb (fst kv) a)) attrs = attrs.
Proof.
  unfold passes. cbn [matches_simple]. induction attrs as [|kv attrs IH]; [reflexivity|].
  simpl. destruct (String.eqb (fst kv) a); simpl; [discriminate|].
  intros H. rewrite IH by exact H. reflexivity.
Qed.

Lemma scan_strip (t : node) : forall u p, scan c (HasAttr a) u p (strip c a u t) = [].
Proof.
  induction t as [txt | tg cs attrs kids IH] using node_induction; intros u p.
  - reflexivity.
  - cbn [strip]. rewrite scan_El.
    assert (Hself : passes (HasAttr a) tg cs
                      (if u then List.filter (fun kv => negb (String.eqb (fst kv) a)) attrs
                       else attrs) && u = false).
    { destruct u; [rewrite removed_has_not; reflexivity | apply andb_false_r]. }
    rewrite Hself. cbn [app].
    generalize 0. generalize (has_class c cs || u). intros u'.
    induction IH as [|kid ks Hk _ IHks]; intros i; [reflexivity|].
    cbn [map scan_each]. rewrite Hk, IHks. reflexivity.
Qed.

Lemma remove_all_below (tg : string) (cs : list string) (attrs : list (string * string))
    (i : nat) (qs : list path) :
  forall kids,
    remove_all a (map (cons i) qs) (El tg cs attrs kids) =
    El tg cs attrs (alter (remove_all a qs) i kids).
Proof.
  unfold remove_all. induction qs as [|q qs IH]; intros kids.
  - simpl. f_equal. symmetry. apply list_eq. intros j.
    destruct (decide (i = j)) as [<-|Hne].
    + rewrite list_lookup_alter_eq. destruct (kids !! i); reflexivity.
    + apply list_lookup_alter_ne. exact Hne.
  - simpl. rewrite IH, alter_alter_same. reflexivity.
Qed.

Lemma alter_middle {A : Type} (f : A -> A) (l1 l2 : list A) (x : A) :
  alter f (length l1) (l1 ++ x :: l2) = l1 ++ f x :: l2.
Proof. induction l1 as [|y l1 IH]; simpl; [reflexivity | f_equal; exact IH]. Qed.

Lemma remove_all_kids (tg : string) (cs : list string) (attrs : list (string * string))
    (u : bool) (kids : list node) :
  Forall (fun k => forall u, remove_all a (scan c (HasAttr a) u [] k) k = strip c a u k) kids ->
  forall done,
    remove_all a (scan_each c (HasAttr a) u [] kids (length done))
               (El tg cs attrs (done ++ kids)) =
    El tg cs attrs (done ++ map (strip c a u) kids).
Proof.
  induction 1 as [|kid ks Hk _ IHks]; intros done; [reflexivity|].
  cbn [scan_each map]. unfold remove_all at 1. rewrite fold_left_app.
  fold (remove_all a (scan c (HasAttr a) u ([] ++ [length done]) kid)
                     (El tg cs attrs (done ++ kid :: ks))).
  rewrite (scan_prefix c (HasAttr a) kid u ([] ++ [length done])).
  change (app ([] ++ [length done])) with (cons (A := nat) (length done)).
  rewrite remove_all_below, alter_middle, Hk.
  specialize (IHks (done ++ [strip c a u kid])).
  rewrite length_app, <- !app_assoc in IHks. cbn [length app] in IHks.
  replace (length done + 1) with (S (length done)) in IHks by lia.
  exact IHks.
Qed.

Lemma remove_all_strip (t : node) :
  forall u, remove_all a (scan c (HasAttr a) u [] t) t = strip c a u t.
Proof.
  induction t as [txt | tg cs attrs kids IH] using node_induction; intros u.
  - reflexivity.
  - rewrite scan_El. unfold remove_all at 1. rewrite fold_left_app.
    assert (Hself : fold_left (fun d p => update (removeAttribute a) p d)
                      (if passes (HasAttr a) tg cs attrs && u then [([] : path)] else [])
                      (El tg cs attrs kids)
                    = El tg cs (if u then List.filter (fun kv => negb (String.eqb (fst kv) a)) attrs
                                else attrs) kids).
    { destruct u.
      - destruct (passes (HasAttr a) tg cs attrs) eqn:Ha; simpl; [reflexivity|].
        rewrite (remove_absent attrs tg cs) by exact Ha. reflexivity.
      - rewrite andb_false_r. reflexivity. }
    rewrite Hself.
    exact (remove_all_kids tg cs _ (has_class c cs || u) kids IH []).
Qed.

(** The loop removes the attribute below the class and nowhere else, and
    leaves nothing for its own selector to find. *)
Lemma cleanup_is_complete (d : node) :
  remove_all a (querySelectorAll (scoped c (HasAttr a)) d) d = strip c a false d /\
  querySelectorAll (scoped c (HasAttr a))
    (remove_all a (querySelectorAll (scoped c (HasAttr a)) d) d) = [].
Proof.
  rewrite !(query_scan c (HasAttr a) I), remove_all_strip.
  split; [reflexivity | apply scan_strip].
Qed.

End Strip.

Lemma MessageSection_document (v : view) (d : node) :
  fontsLoaded v = true ->
  document (exec (MessageSection.setup v) (blank d)) =
  remove_all "aria-label"
    (querySelectorAll (scoped "message-content" (HasAttr "aria-label"))
       (document (exec (SplitText_create [[Class "first-message"]] Words;;
                        SplitText_create [[Class "second-message"]] Words;;
                        SplitText_create [[Class "message-content"]; [Tag "p"]] WordsLines)
                   (blank d))))
    (document (exec (SplitText_create [[Class "first-message"]] Words;;
                     SplitText_create [[Class "second-message"]] Words;;
                     SplitText_create [[Class "message-content"]; [Tag "p"]] WordsLines)
                (blank d))).
Proof.
  intros Hv. unfold MessageSection.setup. rewrite Hv. reflexivity.
Qed.

Lemma NutritionSection_document (v : view) (d : node) :
  fontsLoaded v = true ->
  document (exec (NutritionSection.setup v) (blank d)) =
  remove_all "aria-label"
    (querySelectorAll (scoped "nutrition-section" (HasAttr "aria-label"))
       (document (exec (SplitText_create [[Class "nutrition-title"]] Chars;;
                        SplitText_create [[Class "nutrition-section"]; [Tag "p"]] WordsLines)
                   (blank d))))
    (document (exec (SplitText_create [[Class "nutrition-title"]] Chars;;
                     SplitText_create [[Class "nutrition-section"]; [Tag "p"]] WordsLines)
                (blank d))).
Proof.
  intros Hv. unfold NutritionSection.setup. rewrite Hv. reflexivity.
Qed.

(** X16. On every document, once the message or the nutrition setup has run
    with the fonts in, no element below the section carries an [aria-label]
    any more, whether the split put it there or it was there before: the
    document is the one the splits left, with the attribute removed from
    every element below an element of the section's class and from no other
    element. *)
Theorem cleanup_leaves_no_label (v : view) (d : node) :
  fontsLoaded v = true ->
  querySelectorAll [[Class "message-content"]; [HasAttr "aria-label"]]
    (document (exec (MessageSection.setup v) (blank d))) = [] /\
  querySelectorAll [[Class "nutrition-section"]; [HasAttr "aria-label"]]
    (document (exec (NutritionSection.setup v) (blank d))) = [] /\
  document (exec (MessageSection.setup v) (blank d)) =
    strip "message-content" "aria-label" false
      (document (exec (SplitText_create [[Class "first-message"]] Words;;
                       SplitText_create [[Class "second-message"]] Words;;
                       SplitText_create [[Class "message-content"]; [Tag "p"]] WordsLines)
                  (blank d))) /\
  document (exec (NutritionSection.setup v) (blank d)) =
    strip "nutrition-section" "aria-label" false
      (document (exec (SplitText_create [[Class "nutrition-title"]] Chars;;
                       SplitText_create [[Class "nutrition-section"]; [Tag "p"]] WordsLines)
                  (blank d))).
Proof.
  intros Hv.
  rewrite (MessageSection_document v d Hv), (NutritionSection_document v d Hv).
  change [[Class "message-content"]; [HasAttr "aria-label"]]
    with (scoped "message-content" (HasAttr "aria-label")).
  change [[Class "nutrition-section"]; [HasAttr "aria-label"]]
    with (scoped "nutrition-section" (HasAttr "aria-label")).
  repeat split; apply cleanup_is_complete.
Qed.

Lemma cleanup_leaves_no_label_witness :
  querySelectorAll [[Class "message-content"]; [HasAttr "aria-label"]]
    (document (exec (MessageSection.setup (desktop true)) (blank MessageSection.markup))) = [] /\
  querySelectorAll [[Class "nutrition-section"]; [HasAttr "aria-label"]]
    (document (exec (NutritionSection.setup (desktop true)) (blank MessageSection.markup))) = [] /\
  document (exec (MessageSection.setup (desktop true)) (blank MessageSection.markup)) =
    strip "message-content" "aria-label" false
      (document (exec (SplitText_create [[Class "first-message"]] Words;;
                       SplitText_create [[Class "second-message"]] Words;;
                       SplitText_create [[Class "message-content"]; [Tag "p"]] WordsLines)
                  (blank MessageSection.markup))) /\
  document (exec (NutritionSection.setup (desktop true)) (blank MessageSection.markup)) =
    strip "nutrition-section" "aria-label" false
      (document (exec (SplitText_create [[Class "nutrition-title"]] Chars;;
                       SplitText_create [[Class "nutrition-section"]; [Tag "p"]] WordsLines)
                  (blank MessageSection.markup))).
Proof.
  apply (cleanup_leaves_no_label (desktop true) MessageSection.markup). reflexivity.
Defined.

End CleanupFacts.

Section ParagraphFacts.
Import Dom Gsap React Page Cleanup.

Lemma scan_each_alter c s (g : node -> node) :
  (forall k u p, scan c s u p (g k) = scan c s u p k) ->
  forall kids i u p j, scan_each c s u p (alter g i kids) j = scan_each c s u p kids j.
Proof.
  intros Hg. induction kids as [|k ks IH]; intros i u p j; [reflexivity|].
  destruct i as [|i]; cbn [alter list_alter scan_each].
  - rewrite Hg. reflexivity.
  - rewrite IH. reflexivity.
Qed.

Lemma scan_update c s (f : node -> node) :
  (forall k u p, scan c s u p (f k) = scan c s u p k) ->
  forall q d u p, scan c s u p (update f q d) = scan c s u p d.
Proof.
  intros Hf. induction q as [|i q IH]; intros d u p; [apply Hf|].
  destruct d as [tg cs attrs kids | txt]; [|reflexivity].
  cbn [update]. rewrite !scan_El. f_equal.
  apply scan_each_alter. intros k u' p'. apply IH.
Qed.

Lemma scan_setAttribute c s name value :
  attribute_blind s ->
  forall k u p, scan c s u p (setAttribute name value k) = scan c s u p k.
Proof.
  intros Hs [tg cs attrs kids | txt] u p; [|reflexivity].
  cbn [setAttribute]. rewrite !scan_El. f_equal.
  destruct s; try destruct Hs; reflexivity.
Qed.

Lemma scan_label c s : attribute_blind s ->
  forall els d u p, scan c s u p (fold_left label els d) = scan c s u p d.
Proof.
  intros Hs. induction els as [|q els IH]; intros d u p; [reflexivity|].
  cbn [fold_left]. rewrite IH. unfold label.
  destruct (Dom.lookup q d); [|reflexivity].
  apply scan_update. apply scan_setAttribute. exact Hs.
Qed.

Lemma NutritionSection_splits (v : view) (d : node) :
  fontsLoaded v = true ->
  map split_of (splits (exec (NutritionSection.setup v) (blank d))) =
  [querySelectorAll [[Class "nutrition-title"]] d;
   querySelectorAll [[Class "nutrition-section"]; [Tag "p"]]
     (fold_left label (querySelectorAll [[Class "nutrition-title"]] d) d)].
Proof.
  intros Hv. unfold NutritionSection.setup. rewrite Hv. reflexivity.
Qed.

Lemma nutrient_paragraphs (separator : nat -> bool) :
  forall (l : list NutritionSection.nutrient) (i : nat),
    scan_each "nutrition-section" (Tag "p") true [2; 2; 0]
      (imap (fun index n =>
               el "div" "relative flex-1 col-center"
                  (el "div" ""
                      [el "p" "md:text-lg text-sm font-paragraph"
                          [Text (NutritionSection.label n)];
                       el "p" "font-paragraph text-sm mt-2" [Text "up to"];
                       el "p" "text-2xl md:text-3xl tracking-tighter font-bold"
                          [Text (NutritionSection.amount n)]]
                   :: (if separator index then [el "div" "spacer-border" []] else [])))
            l) i =
    flat_map (fun i => [[2; 2; 0; i; 0; 0]; [2; 2; 0; i; 0; 1]; [2; 2; 0; i; 0; 2]])
             (seq i (length l)).
Proof.
  revert separator. intros separator l. revert separator.
  induction l as [|n l IH]; intros separator i; [reflexivity|].
  rewrite imap_cons. cbn [scan_each length seq flat_map].
  change [[2; 2; 0; i; 0; 0]; [2; 2; 0; i; 0; 1]; [2; 2; 0; i; 0; 2]]
    with ([[2; 2; 0; i; 0; 0]; [2; 2; 0; i; 0; 1]; [2; 2; 0; i; 0; 2]] ++ []) at 1.
  rewrite <- app_assoc. f_equal.
  - destruct (separator 0); reflexivity.
  - exact (IH (fun index => separator (S index)) (S i)).
Qed.

Lemma nutrition_paragraphs (shown : list NutritionSection.nutrient) :
  scan "nutrition-section" (Tag "p") false [] (NutritionSection.markup shown) =
  [2; 1; 0; 0]
  :: flat_map (fun i => [[2; 2; 0; i; 0; 0]; [2; 2; 0; i; 0; 1]; [2; 2; 0; i; 0; 2]])
              (seq 0 (length shown)).
Proof.
  unfold NutritionSection.markup. simpl. rewrite !app_nil_r. f_equal.
  exact (nutrient_paragraphs (fun index => negb (index =? length shown - 1)%nat) shown 0).
Qed.

Lemma three_each (l : list nat) :
  length (flat_map (fun i => [[2; 2; 0; i; 0; 0]; [2; 2; 0; i; 0; 1]; [2; 2; 0; i; 0; 2]]) l)
  = 3 * length l.
Proof. induction l as [|i l IH]; simpl in *; lia. Qed.

Lemma NutritionSection_paragraphSplit (v : view) (d : node) :
  fontsLoaded v = true ->
  exists titleSplit paragraphSplit,
    splits (exec (NutritionSection.setup v) (blank d)) = [titleSplit; paragraphSplit] /\
    split_of paragraphSplit = scan "nutrition-section" (Tag "p") false [] d.
Proof.
  intros Hv. pose proof (NutritionSection_splits v d Hv) as H.
  destruct (splits (exec (NutritionSection.setup v) (blank d)))
    as [|t [|q [|x rest]]]; try discriminate H.
  exists t, q. split; [reflexivity|].
  injection H as _ Hq. rewrite Hq.
  change [[Class "nutrition-section"]; [Tag "p"]] with (scoped "nutrition-section" (Tag "p")).
  rewrite (query_scan "nutrition-section" (Tag "p") I), (scan_label "nutrition-section" (Tag "p") I).
  reflexivity.
Qed.

(** X17. On the nutrition section's own markup, whatever list of nutrients
    it shows, the setup with the fonts in makes two splits, and the second
    one, of [".nutrition-section p"], takes the description paragraph and
    the three lines of every nutrient shown: 1 + 3n elements.  The labels
    the title split has just written do not change what it finds. *)
Theorem paragraph_split_takes_in_the_list (v : view) (shown : list NutritionSection.nutrient) :
  fontsLoaded v = true ->
  exists titleSplit paragraphSplit,
    splits (exec (NutritionSection.setup v) (blank (NutritionSection.markup shown))) =
      [titleSplit; paragraphSplit] /\
    split_of paragraphSplit =
      [2; 1; 0; 0]
      :: flat_map (fun i => [[2; 2; 0; i; 0; 0]; [2; 2; 0; i; 0; 1]; [2; 2; 0; i; 0; 2]])
                  (seq 0 (length shown)) /\
    length (split_of paragraphSplit) = 1 + 3 * length shown.
Proof.
  intros Hv.
  destruct (NutritionSection_paragraphSplit v (NutritionSection.markup shown) Hv)
    as (t & q & Hsplits & Hq).
  exists t, q. split; [exact Hsplits|].
  rewrite Hq, nutrition_paragraphs. split; [reflexivity|].
  cbn [length]. rewrite three_each, length_seq. reflexivity.
Qed.

Lemma paragraph_split_takes_in_the_list_witness :
  exists titleSplit paragraphSplit,
    splits (exec (NutritionSection.setup (desktop true))
                 (blank (NutritionSection.markup sample_nutrients))) =
      [titleSplit; paragraphSplit] /\
    split_of paragraphSplit =
      [2; 1; 0; 0]
      :: flat_map (fun i => [[2; 2; 0; i; 0; 0]; [2; 2; 0; i; 0; 1]; [2; 2; 0; i; 0; 2]])
                  (seq 0 (length sample_nutrients)) /\
    length (split_of paragraphSplit) = 1 + 3 * length sample_nutrients.
Proof.
  apply (paragraph_split_takes_in_the_list (desktop true) sample_nutrients). reflexivity.
Defined.

End ParagraphFacts.
